(** * promptvault: versioned prompt templates

    A shallow embedding of [src/promptvault/prompt.py] and
    [src/promptvault/vault.py], followed by the properties of rendering,
    version resolution, diffing and usage logging.

    Python dictionaries that are only looked up are finite maps ([gmap]);
    [Prompt.variables], whose iteration order decides which check fails
    first, is an insertion-ordered association list.  Exceptions are values
    of [exn] carried by the [result] monad. *)

From Stdlib Require Import ZArith Ascii.
From stdpp Require Import base option list gmap strings pretty sorting.

Local Open Scope stdpp_scope.

(** ** Python values and exceptions *)

(** The runtime values a YAML document or a caller can hand to the library.
    A float is kept as its IEEE-754 binary64 bit pattern. *)
#[warnings="-register-all"] Inductive value : Type :=
  | VNone
  | VBool (b : bool)
  | VInt (z : Z)
  | VFloat (bits : Z)
  | VStr (s : string)
  | VList (l : list value)
  | VDict (d : list (value * value)).

(** The four classes named by [type_map] in [Prompt._validate]. *)
Inductive py_type : Type := PyStr | PyInt | PyFloat | PyBool.

(** [isinstance(v, t)]; [bool] is a subclass of [int]. *)
Definition isinstance (v : value) (t : py_type) : bool :=
  match t, v with
  | PyStr, VStr _ => true
  | PyInt, VInt _ => true
  | PyInt, VBool _ => true
  | PyFloat, VFloat _ => true
  | PyBool, VBool _ => true
  | _, _ => false
  end.

(** [type(v).__name__] *)
Definition type_name (v : value) : string :=
  match v with
  | VNone => "NoneType"
  | VBool _ => "bool"
  | VInt _ => "int"
  | VFloat _ => "float"
  | VStr _ => "str"
  | VList _ => "list"
  | VDict _ => "dict"
  end.

Inductive exn : Type :=
  | KeyError (arg : string)
  | TypeError (msg : string)
  | ValueError (msg : string)
  | IndexError (msg : string)
  | FileNotFoundError (msg : string).

Inductive result (A : Type) : Type :=
  | Ok (a : A)
  | Raise (e : exn).
Arguments Ok {A} a.
Arguments Raise {A} e.

(** Sequencing: the first exception raised ends the computation. *)
#[global] Instance result_bind : MBind result := λ A B k r,
  match r with
  | Ok a => k a
  | Raise e => Raise e
  end.

Definition raises {A : Type} (r : result A) : Prop :=
  match r with
  | Ok _ => False
  | Raise _ => True
  end.

(** What the library calls but does not define: [str(v)] on a value,
    [repr(s)] on a string, [str.splitlines(keepends=True)],
    [difflib.unified_diff(a, b, fromfile, tofile)], [json.dumps], which
    raises on what it cannot serialise, and [Path.resolve()] on the text of
    a path. *)
Class Builtins : Type := {
  py_str : value → string;
  py_repr : string → string;
  splitlines : string → list string;
  unified_diff : list string → list string → string → string → list string;
  json_dumps : list (string * value) → result string;
  path_resolve : string → string
}.

(** [", ".join(xs)] *)
Fixpoint join_comma (xs : list string) : string :=
  match xs with
  | [] => ""
  | [x] => x
  | x :: rest => x +:+ ", " +:+ join_comma rest
  end.

(** The text of a list of strings inside an f-string: [['a', 'b']]. *)
Definition repr_list `{Builtins} (xs : list string) : string :=
  "[" +:+ join_comma (map py_repr xs) +:+ "]".

(** ** [string.Template]

    The standard-library class [Prompt.render] substitutes with, with the
    default delimiter and identifier pattern. *)

Module Template.

(** The named groups of [Template.pattern]; [invalid] matches the empty
    string and is kept with the offset at which it starts. *)
Inductive group : Type :=
  | Escaped
  | Named (id : string)
  | Braced (id : string)
  | Invalid (start : nat).

(** A template is a sequence of literal characters and pattern matches. *)
Inductive piece : Type :=
  | Text (c : ascii)
  | Match (g : group).

(** Where the scanner stands relative to the delimiter: outside any match,
    just after [$], inside [$id], just after [${], inside [${id].  The
    braced states remember the offset that follows the delimiter. *)
Inductive state : Type :=
  | Outside
  | Delim
  | InNamed (id : string)
  | Brace (start : nat)
  | InBraced (start : nat) (id : string).

Definition between (lo hi c : ascii) : bool :=
  (nat_of_ascii lo <=? nat_of_ascii c)%nat
  && (nat_of_ascii c <=? nat_of_ascii hi)%nat.

Definition is_delim (c : ascii) : bool := bool_decide (c = "$"%char).
Definition is_lbrace (c : ascii) : bool := bool_decide (c = "{"%char).
Definition is_rbrace (c : ascii) : bool := bool_decide (c = "}"%char).

(** [idpattern]: an ASCII letter or underscore, then ASCII letters, digits
    and underscores, matched under [re.IGNORECASE]. *)
Definition is_id_start (c : ascii) : bool :=
  bool_decide (c = "_"%char)
  || between "a"%char "z"%char c || between "A"%char "Z"%char c.
Definition is_id_char (c : ascii) : bool :=
  is_id_start c || between "0"%char "9"%char c.

Definition snoc (s : string) (c : ascii) : string := s +:+ String c "".

Fixpoint texts (s : string) : list piece :=
  match s with
  | EmptyString => []
  | String c r => Text c :: texts r
  end.

(** What is left in hand when the template ends at offset [i]. *)
Definition at_end (st : state) (i : nat) : list piece :=
  match st with
  | Outside => []
  | Delim => [Match (Invalid i)]
  | InNamed id => [Match (Named id)]
  | Brace start => [Match (Invalid start); Text "{"%char]
  | InBraced start id => Match (Invalid start) :: Text "{"%char :: texts id
  end.

(** Leftmost matches of [Template.pattern]: after the delimiter, in this
    order, a second delimiter ([escaped]), an identifier ([named]), an
    identifier in braces ([braced]), or nothing ([invalid]).  Identifiers
    are taken greedily.  [i] is the offset of the next character. *)
Fixpoint scan (st : state) (i : nat) (s : string) : list piece :=
  match s with
  | EmptyString => at_end st i
  | String c r =>
      match st with
      | Outside =>
          if is_delim c then scan Delim (S i) r
          else Text c :: scan Outside (S i) r
      | Delim =>
          if is_delim c then Match Escaped :: scan Outside (S i) r
          else if is_id_start c then scan (InNamed (String c "")) (S i) r
          else if is_lbrace c then scan (Brace i) (S i) r
          else Match (Invalid i) :: Text c :: scan Outside (S i) r
      | InNamed id =>
          if is_id_char c then scan (InNamed (snoc id c)) (S i) r
          else Match (Named id)
                 :: (if is_delim c then scan Delim (S i) r
                     else Text c :: scan Outside (S i) r)
      | Brace start =>
          if is_id_start c then scan (InBraced start (String c "")) (S i) r
          else Match (Invalid start) :: Text "{"%char
                 :: (if is_delim c then scan Delim (S i) r
                     else Text c :: scan Outside (S i) r)
      | InBraced start id =>
          if is_id_char c then scan (InBraced start (snoc id c)) (S i) r
          else if is_rbrace c then Match (Braced id) :: scan Outside (S i) r
          else Match (Invalid start) :: Text "{"%char
                 :: texts id
                 ++ (if is_delim c then scan Delim (S i) r
                     else Text c :: scan Outside (S i) r)
      end
  end.

Definition pieces (template : string) : list piece := scan Outside 0 template.

(** [len(s)]: code points of UTF-8 text, the bytes that continue none. *)
Fixpoint py_len (s : string) : nat :=
  match s with
  | EmptyString => 0
  | String c r =>
      (if between (ascii_of_nat 128) (ascii_of_nat 191) c then 0 else 1)
      + py_len r
  end.

(** The message of [Template._invalid] for an invalid match at [start]. *)
Definition invalid_msg `{Builtins} (template : string) (start : nat)
  : string :=
  let before := String.substring 0 start template in
  let lines := splitlines before in
  let lineno := match lines with [] => 1 | _ => length lines end in
  let colno :=
    match lines with
    | [] => 1
    | _ => py_len before
           - py_len (foldr String.append "" (removelast lines))
    end in
  "Invalid placeholder in string: line " +:+ pretty lineno +:+ ", col "
    +:+ pretty colno.

(** The [convert] callback of [Template.substitute]. *)
Definition convert `{Builtins} (template : string)
  (mapping : gmap string value) (g : group) : result string :=
  match g with
  | Named id | Braced id =>
      match mapping !! id with
      | Some v => Ok (py_str v)
      | None => Raise (KeyError id)
      end
  | Escaped => Ok "$"
  | Invalid start => Raise (ValueError (invalid_msg template start))
  end.

(** [pattern.sub(convert, template)]: matches are converted left to right
    and the first exception ends the call. *)
Fixpoint sub `{Builtins} (template : string) (mapping : gmap string value)
  (ps : list piece) : result string :=
  match ps with
  | [] => Ok ""
  | Text c :: rest => s ← sub template mapping rest; Ok (String c s)
  | Match g :: rest =>
      x ← convert template mapping g;
      s ← sub template mapping rest;
      Ok (x +:+ s)
  end.

Definition substitute `{Builtins} (template : string)
  (mapping : gmap string value) : result string :=
  sub template mapping (pieces template).

(** The identifiers a match refers to. *)
Definition group_name (g : group) : option string :=
  match g with
  | Named id | Braced id => Some id
  | _ => None
  end.

Definition piece_name (pc : piece) : option string :=
  match pc with
  | Match g => group_name g
  | Text _ => None
  end.

Definition placeholders (template : string) : list string :=
  omap piece_name (pieces template).

(** No [$] that the pattern can only match through its [invalid] group. *)
Definition well_formed (template : string) : Prop :=
  ∀ start, Match (Invalid start) ∉ pieces template.

(** [x] is the name of a placeholder that no invalid match precedes. *)
Definition reaches (template : string) (x : string) : Prop :=
  ∃ before g after,
    pieces template = before ++ Match g :: after
    ∧ group_name g = Some x
    ∧ ∀ start, Match (Invalid start) ∉ before.

End Template.

(** ** [prompt.py] *)

Module Prompt.

(** One entry of [Prompt.variables], as the YAML schema has it: [required]
    a boolean, [default] any value, [type] a string, each key optional;
    [default: null] is [Some VNone]. *)
Record var_meta : Type := {
  vm_required : option bool;
  vm_default : option value;
  vm_type : option string
}.

Record t : Type := {
  name : string;
  version : string;
  template : string;
  description : string;
  author : string;
  tags : list string;
  variables : list (string * var_meta);
  metadata : list (string * value)
}.

(** [list(self.variables.keys())] *)
Definition keys (p : t) : list string := (variables p).*1.

(** A dictionary holds each key once. *)
Definition unique_keys (p : t) : Prop := NoDup (keys p).

(** [self.variables[k]] when [k] is declared. *)
Fixpoint declared (k : string) (items : list (string * var_meta))
  : option var_meta :=
  match items with
  | [] => None
  | (var_name, var_meta) :: rest =>
      if decide (var_name = k) then Some var_meta else declared k rest
  end.

Definition type_map : gmap string py_type :=
  <["str" := PyStr]> (<["int" := PyInt]>
    (<["float" := PyFloat]> (<["bool" := PyBool]> ∅))).

(** Truth value of a string: non-empty. *)
Definition truthy (s : string) : bool :=
  match s with
  | EmptyString => false
  | String _ _ => true
  end.

Definition required_msg (p : t) (var_name : string) : string :=
  "[promptvault] Required variable '" +:+ var_name
    +:+ "' missing for prompt '" +:+ name p +:+ "' v" +:+ version p +:+ ".".

Definition type_msg (p : t) (var_name expected_type actual : string)
  : string :=
  "[promptvault] Variable '" +:+ var_name +:+ "' in prompt '" +:+ name p
    +:+ "' expected " +:+ expected_type +:+ ", got " +:+ actual +:+ ".".

Definition missing_msg `{Builtins} (p : t) (key : string) : string :=
  "[promptvault] Missing variable " +:+ py_repr key +:+ " in prompt '"
    +:+ name p +:+ "' v" +:+ version p +:+ ". Expected variables: "
    +:+ repr_list (keys p).

(** The first statement of the loop body of [_validate]. *)
Definition check_required (p : t) (kwargs : gmap string value)
  (var_name : string) (var_meta : var_meta) : result unit :=
  let required := default true (vm_required var_meta) in
  let has_default := bool_decide (is_Some (vm_default var_meta)) in
  if required && negb has_default
     && negb (bool_decide (is_Some (kwargs !! var_name)))
  then Raise (KeyError (required_msg p var_name))
  else Ok tt.

(** The second statement of the loop body of [_validate]. *)
Definition check_type (p : t) (kwargs : gmap string value)
  (var_name : string) (var_meta : var_meta) : result unit :=
  match vm_type var_meta with
  | Some expected_type =>
      if truthy expected_type then
        match kwargs !! var_name with
        | Some v =>
            match type_map !! expected_type with
            | Some py_type =>
                if negb (isinstance v py_type)
                then Raise (TypeError
                       (type_msg p var_name expected_type (type_name v)))
                else Ok tt
            | None => Ok tt
            end
        | None => Ok tt
        end
      else Ok tt
  | None => Ok tt
  end.

Definition validate_var (p : t) (kwargs : gmap string value)
  (item : string * var_meta) : result unit :=
  check_required p kwargs item.1 item.2 ;;
  check_type p kwargs item.1 item.2.

Fixpoint validate_items (p : t) (kwargs : gmap string value)
  (items : list (string * var_meta)) : result unit :=
  match items with
  | [] => Ok tt
  | item :: rest => validate_var p kwargs item ;; validate_items p kwargs rest
  end.

Definition _validate (p : t) (kwargs : gmap string value) : result unit :=
  validate_items p kwargs (variables p).

(** The loop of [_apply_defaults], threading [merged]. *)
Fixpoint merge_items (kwargs : gmap string value)
  (items : list (string * var_meta)) (merged : gmap string value)
  : gmap string value :=
  match items with
  | [] => merged
  | (var_name, var_meta) :: rest =>
      merge_items kwargs rest
        match kwargs !! var_name with
        | Some v => <[var_name := v]> merged
        | None =>
            match vm_default var_meta with
            | Some d => <[var_name := d]> merged
            | None => merged
            end
        end
  end.

(** [merged.update(extra)]: the entries of [extra] overwrite. *)
Definition update (merged extra : gmap string value) : gmap string value :=
  extra ∪ merged.

Definition _apply_defaults (p : t) (kwargs : gmap string value)
  : gmap string value :=
  let merged := merge_items kwargs (variables p) ∅ in
  update merged (filter (λ kv, merged !! kv.1 = None) kwargs).

(** Binding the arguments of the call [render(self, **kwargs)]: a supplied
    key [self] collides with the receiver and the call raises before the
    body runs.  The message is the one of CPython 3.10 and later. *)
Definition bind_call (kwargs : gmap string value) : result unit :=
  if bool_decide (is_Some (kwargs !! "self"))
  then Raise (TypeError
         "Prompt.render() got multiple values for argument 'self'")
  else Ok tt.

(** The statements of [render]. *)
Definition render_body `{Builtins} (p : t) (kwargs : gmap string value)
  : result string :=
  _validate p kwargs ;;
  let merged := _apply_defaults p kwargs in
  match Template.substitute (template p) merged with
  | Ok s => Ok s
  | Raise (KeyError e) => Raise (KeyError (missing_msg p e))
  | Raise e => Raise e
  end.

Definition render `{Builtins} (p : t) (kwargs : gmap string value)
  : result string :=
  bind_call kwargs ;; render_body p kwargs.

End Prompt.

(** ** [vault.py] *)

(** [sorted(xs)]: Python's sort is stable and uses [<] only. *)
Section sorted.
Context {A : Type} (lt : A → A → bool).

Fixpoint insert_sorted (x : A) (l : list A) : list A :=
  match l with
  | [] => [x]
  | y :: rest => if lt y x then y :: insert_sorted x rest else x :: l
  end.

Definition sorted (l : list A) : list A := foldr insert_sorted [] l.
End sorted.

(** [a < b] on [str]: lexicographic on code points. *)
Definition str_lt (a b : string) : bool := String.ltb a b.

Definition nl : string := String (ascii_of_nat 10) "".

Module PromptVault.

(** The mapping [yaml.safe_load] returns for one file, by the keys the
    library reads, each optional and of the type the [Prompt] dataclass
    declares for it; an empty file gives the empty mapping. *)
Record yaml : Type := {
  y_name : option string;
  y_version : option string;
  y_template : option string;
  y_description : option string;
  y_author : option string;
  y_tags : option (list string);
  y_variables : option (list (string * Prompt.var_meta));
  y_other : list (string * value)
}.

(** One [*.yaml] file of the prompt directory. *)
Record file : Type := { stem : string; data : yaml }.

(** The prompt directory as a call finds it: its resolved path and its
    [*.yaml] files in the order [glob] yields them. *)
Record store : Type := { resolved : string; files : list file }.

(** The part of the outside world that [log] touches. *)
Record world : Type := {
  w_dirs : gset string;
  w_files : gmap string string;
  w_utcnow : string
}.

Record t : Type := { _path : string; _log_file : option string }.

(** [exists_] is [self._path.exists()]; an empty [log_file] is falsy. *)
Definition __init__ `{Builtins} (exists_ : bool) (path : string)
  (log_file : option string) : result t :=
  if negb exists_ then
    Raise (FileNotFoundError
      ("[promptvault] Prompt directory not found: " +:+ path_resolve path +:+ nl
         +:+ "Create it and add your .yaml prompt files there."))
  else
    Ok {| _path := path;
          _log_file := match log_file with
                       | Some f => if Prompt.truthy f then Some f else None
                       | None => None
                       end |}.

Definition _find_files (st : store) (name : string) : list file :=
  filter (λ f, y_name (data f) = Some name) (files st).

(** [p["version"]] *)
Definition get_version (p : file) : result string :=
  match y_version (data p) with
  | Some v => Ok v
  | None => Raise (KeyError "version")
  end.

Fixpoint get_versions (ps : list file) : result (list string) :=
  match ps with
  | [] => Ok []
  | p :: rest => v ← get_version p; vs ← get_versions rest; Ok (v :: vs)
  end.

Definition versions (st : store) (name : string) : result (list string) :=
  vs ← get_versions (_find_files st name); Ok (sorted str_lt vs).

Definition _parse (d : file) : result Prompt.t :=
  match y_name (data d) with
  | None => Raise (KeyError "name")
  | Some name =>
      match y_template (data d) with
      | None => Raise (KeyError "template")
      | Some template =>
          Ok {| Prompt.name := name;
                Prompt.version := default "1.0" (y_version (data d));
                Prompt.template := template;
                Prompt.description := default "" (y_description (data d));
                Prompt.author := default "" (y_author (data d));
                Prompt.tags := default [] (y_tags (data d));
                Prompt.variables := default [] (y_variables (data d));
                Prompt.metadata := y_other (data d) |}
      end
  end.

(** [next((p for p in candidates if p["version"] == version), None)] *)
Fixpoint find_version (version : string) (candidates : list file)
  : result (option file) :=
  match candidates with
  | [] => Ok None
  | p :: rest =>
      v ← get_version p;
      if decide (v = version) then Ok (Some p)
      else find_version version rest
  end.

(** [sorted(candidates, key=lambda p: p["version"])]: keys first. *)
Definition sorted_by_version (candidates : list file)
  : result (list file) :=
  keys ← get_versions candidates;
  Ok (sorted (λ a b, str_lt a.1 b.1) (zip keys candidates)).*2.

(** [xs[-1]] *)
Definition last_item {A : Type} (xs : list A) : result A :=
  match last xs with
  | Some x => Ok x
  | None => Raise (IndexError "list index out of range")
  end.

(** The keyword arguments of [log]. *)
Record log_kwargs : Type := {
  version : option string;
  rendered : option string;
  response : option string;
  model : option string;
  extra : option (list (string * value))
}.

Definition opt_str (o : option string) : value :=
  match o with
  | Some s => VStr s
  | None => VNone
  end.

(** [d[k] = v] on an insertion-ordered dictionary. *)
Fixpoint dict_set (k : string) (v : value) (d : list (string * value))
  : list (string * value) :=
  match d with
  | [] => [(k, v)]
  | (k', v') :: rest =>
      if decide (k' = k) then (k, v) :: rest
      else (k', v') :: dict_set k v rest
  end.

(** The directories above a normalised path, outermost first. *)
Fixpoint parents_from (seen rest : string) : list string :=
  match rest with
  | EmptyString => []
  | String c r =>
      if bool_decide (c = "/"%char)
      then (if Prompt.truthy seen then seen else "/")
             :: parents_from (Template.snoc seen c) r
      else parents_from (Template.snoc seen c) r
  end.

Definition parents (path : string) : list string := parents_from "" path.

Definition list (st : store) : Datatypes.list string :=
  let names : gset string :=
    list_to_set (map (λ f, default (stem f) (y_name (data f))) (files st)) in
  sorted str_lt (elements names).

Definition load `{Builtins} (st : store) (name : string)
  (version : option string) : result Prompt.t :=
  let candidates := _find_files st name in
  match candidates with
  | [] =>
      Raise (FileNotFoundError
        ("[promptvault] No prompt named '" +:+ name +:+ "' found in "
           +:+ resolved st +:+ "." +:+ nl +:+ "Available prompts: "
           +:+ repr_list (list st)))
  | _ =>
      match version with
      | Some version =>
          m ← find_version version candidates;
          match m with
          | None =>
              available ← get_versions candidates;
              Raise (FileNotFoundError
                ("[promptvault] Prompt '" +:+ name +:+ "' version '"
                   +:+ version +:+ "' not found." +:+ nl
                   +:+ "Available versions: " +:+ repr_list available))
          | Some p => _parse p
          end
      | None =>
          ordered ← sorted_by_version candidates;
          latest ← last_item ordered;
          _parse latest
      end
  end.

Definition diff `{Builtins} (st : store) (name version_a version_b : string)
  : result string :=
  a ← load st name (Some version_a);
  b ← load st name (Some version_b);
  let lines_a := splitlines (Prompt.template a) in
  let lines_b := splitlines (Prompt.template b) in
  let delta :=
    unified_diff lines_a lines_b
      (name +:+ " v" +:+ version_a) (name +:+ " v" +:+ version_b) in
  let text := foldr String.append "" delta in
  Ok (if Prompt.truthy text then text else "(no differences)").

Definition log `{Builtins} (self : t) (name : string) (kw : log_kwargs)
  (w : world) : result unit * world :=
  match _log_file self with
  | None => (Ok tt, w)
  | Some log_file =>
      let record :=
        foldl (λ d kv, dict_set kv.1 kv.2 d)
          [("timestamp", VStr (w_utcnow w)); ("prompt", VStr name);
           ("version", opt_str (version kw)); ("model", opt_str (model kw));
           ("rendered", opt_str (rendered kw));
           ("response", opt_str (response kw))]
          (default [] (extra kw)) in
      let old := default "" (w_files w !! log_file) in
      let opened :=
        {| w_dirs := w_dirs w ∪ list_to_set (parents log_file);
           w_files := <[log_file := old]> (w_files w);
           w_utcnow := w_utcnow w |} in
      match json_dumps record with
      | Raise e => (Raise e, opened)
      | Ok line =>
          (Ok tt,
           {| w_dirs := w_dirs opened;
              w_files := <[log_file := old +:+ line +:+ nl]> (w_files w);
              w_utcnow := w_utcnow w |})
      end
  end.

End PromptVault.

(** ** An interpreter instance for running examples

    Exact on the inputs the examples use: [str] of [None], booleans,
    integers and strings; [repr] of printable ASCII text without quotes or
    backslashes; line splitting at line feeds.  [unified_diff] stands in
    for [difflib]: nothing on equal inputs, otherwise one hunk replacing
    every line.  [json_dumps] writes scalars and refuses the rest.
    [path_resolve] places a relative path under the working directory
    [/srv]. *)

Definition quote (q : string) (s : string) : string := q +:+ s +:+ q.

Definition dquote : string := String (ascii_of_nat 34) "".

Definition example_str (v : value) : string :=
  match v with
  | VNone => "None"
  | VBool true => "True"
  | VBool false => "False"
  | VInt z => pretty z
  | VStr s => s
  | VFloat _ => "<float>"
  | VList _ => "<list>"
  | VDict _ => "<dict>"
  end.

Fixpoint example_splitlines_from (line rest : string) : list string :=
  match rest with
  | EmptyString => if Prompt.truthy line then [line] else []
  | String c r =>
      if bool_decide (c = ascii_of_nat 10)
      then Template.snoc line c :: example_splitlines_from "" r
      else example_splitlines_from (Template.snoc line c) r
  end.

Definition example_unified_diff (a b : list string) (fromfile tofile : string)
  : list string :=
  if decide (a = b) then []
  else ("--- " +:+ fromfile +:+ nl) :: ("+++ " +:+ tofile +:+ nl)
         :: map (String.append "-") a ++ map (String.append "+") b.

Definition example_json_value (v : value) : result string :=
  match v with
  | VNone => Ok "null"
  | VBool true => Ok "true"
  | VBool false => Ok "false"
  | VInt z => Ok (pretty z)
  | VStr s => Ok (quote dquote s)
  | _ => Raise (TypeError "Object is not JSON serializable")
  end.

Fixpoint example_json_items (d : list (string * value))
  : result (list string) :=
  match d with
  | [] => Ok []
  | (k, v) :: rest =>
      x ← example_json_value v;
      xs ← example_json_items rest;
      Ok ((quote dquote k +:+ ": " +:+ x) :: xs)
  end.

Definition example_builtins : Builtins := {|
  py_str := example_str;
  py_repr := quote "'";
  splitlines := example_splitlines_from "";
  unified_diff := example_unified_diff;
  json_dumps := λ d,
    xs ← example_json_items d; Ok ("{" +:+ join_comma xs +:+ "}");
  path_resolve := λ path, "/srv/" +:+ path
|}.

(** The record of section 8 of the specification. *)
Definition summarize : Prompt.t := {|
  Prompt.name := "summarize";
  Prompt.version := "1.0";
  Prompt.template := "Summarize in $max_words words: $text";
  Prompt.description := "";
  Prompt.author := "";
  Prompt.tags := [];
  Prompt.variables :=
    [("text", {| Prompt.vm_required := Some true;
                 Prompt.vm_default := None;
                 Prompt.vm_type := None |});
     ("max_words", {| Prompt.vm_required := Some false;
                      Prompt.vm_default := Some (VInt 100);
                      Prompt.vm_type := None |})];
  Prompt.metadata := []
|}.

(** A prompt with no declared variables. *)
Definition bare (template : string) : Prompt.t := {|
  Prompt.name := "demo";
  Prompt.version := "1.0";
  Prompt.template := template;
  Prompt.description := "";
  Prompt.author := "";
  Prompt.tags := [];
  Prompt.variables := [];
  Prompt.metadata := []
|}.

Definition with_variables (p : Prompt.t)
  (variables : list (string * Prompt.var_meta)) : Prompt.t := {|
  Prompt.name := Prompt.name p;
  Prompt.version := Prompt.version p;
  Prompt.template := Prompt.template p;
  Prompt.description := Prompt.description p;
  Prompt.author := Prompt.author p;
  Prompt.tags := Prompt.tags p;
  Prompt.variables := variables;
  Prompt.metadata := Prompt.metadata p
|}.

(** [{}], [{type: tag}], [{type: tag, default: d}], [{required: false}] *)
Definition plain : Prompt.var_meta :=
  {| Prompt.vm_required := None; Prompt.vm_default := None;
     Prompt.vm_type := None |}.
Definition typed (tag : string) : Prompt.var_meta :=
  {| Prompt.vm_required := None; Prompt.vm_default := None;
     Prompt.vm_type := Some tag |}.
Definition typed_default (tag : string) (d : value) : Prompt.var_meta :=
  {| Prompt.vm_required := None; Prompt.vm_default := Some d;
     Prompt.vm_type := Some tag |}.
Definition optional : Prompt.var_meta :=
  {| Prompt.vm_required := Some false; Prompt.vm_default := None;
     Prompt.vm_type := None |}.

(** One variable [n] tagged [integer], as the specification spells it. *)
Definition count_integer : Prompt.t :=
  with_variables (bare "Count to $n") [("n", typed "integer")].

(** The same with the tag [int]. *)
Definition count_int : Prompt.t :=
  with_variables (bare "Count to $n") [("n", typed "int")].

(** [a] is typed, [b] is required; both are declared without defaults. *)
Definition two_checks : Prompt.t :=
  with_variables (bare "$a and $b") [("a", typed "int"); ("b", plain)].




(** The supplied mapping that repeats the declared defaults:
    [{k: meta["default"] for k, meta in variables.items() if "default" in meta}]. *)
Definition defaults_of (p : Prompt.t) : gmap string value :=
  list_to_map
    (omap (λ item, (λ d, (item.1, d)) <$> Prompt.vm_default item.2)
          (Prompt.variables p)).

(** [v] passes the type check that [_validate] runs on supplied values. *)
Definition conforms (var_meta : Prompt.var_meta) (v : value) : bool :=
  match Prompt.vm_type var_meta with
  | Some expected_type =>
      match Prompt.type_map !! expected_type with
      | Some py_type => isinstance v py_type
      | None => true
      end
  | None => true
  end.

(** [n] is tagged [int]; its default is text in the first prompt and a
    number in the second. *)
Definition count_text_default : Prompt.t :=
  with_variables (bare "Count to $n")
    [("n", typed_default "int" (VStr "ten"))].

Definition count_int_default : Prompt.t :=
  with_variables (bare "Count to $n")
    [("n", typed_default "int" (VInt 10))].


Definition greeting : Prompt.t :=
  with_variables (bare "Hello ${title} $name")
    [("name", plain); ("title", optional)].

(** A YAML document with the three keys every prompt file sets. *)
Definition doc (name version template : string) : PromptVault.yaml := {|
  PromptVault.y_name := Some name;
  PromptVault.y_version := Some version;
  PromptVault.y_template := Some template;
  PromptVault.y_description := None;
  PromptVault.y_author := None;
  PromptVault.y_tags := None;
  PromptVault.y_variables := None;
  PromptVault.y_other := []
|}.

(** A document that leaves [name] out. *)
Definition nameless (version template : string) : PromptVault.yaml := {|
  PromptVault.y_name := None;
  PromptVault.y_version := Some version;
  PromptVault.y_template := Some template;
  PromptVault.y_description := None;
  PromptVault.y_author := None;
  PromptVault.y_tags := None;
  PromptVault.y_variables := None;
  PromptVault.y_other := []
|}.

Definition greet_1_2 : PromptVault.file :=
  {| PromptVault.stem := "greet_v1_2";
     PromptVault.data := doc "greet" "1.2" "Hi $name" |}.

Definition greet_1_10 : PromptVault.file :=
  {| PromptVault.stem := "greet_v1_10";
     PromptVault.data := doc "greet" "1.10" "Hello $name" |}.

(** A directory holding versions 1.2 and 1.10 of one prompt, in either
    listing order. *)
Definition two_versions : PromptVault.store :=
  {| PromptVault.resolved := "/srv/prompts";
     PromptVault.files := [greet_1_2; greet_1_10] |}.

Definition two_versions_rev : PromptVault.store :=
  {| PromptVault.resolved := "/srv/prompts";
     PromptVault.files := [greet_1_10; greet_1_2] |}.

(** A directory whose only file has no [name] key. *)
Definition draft_file : PromptVault.file :=
  {| PromptVault.stem := "draft";
     PromptVault.data := nameless "1.0" "Draft $topic" |}.

Definition drafts : PromptVault.store :=
  {| PromptVault.resolved := "/srv/prompts";
     PromptVault.files := [draft_file] |}.

Definition no_kwargs : PromptVault.log_kwargs :=
  {| PromptVault.version := None; PromptVault.rendered := None;
     PromptVault.response := None; PromptVault.model := None;
     PromptVault.extra := None |}.

Definition empty_world : PromptVault.world :=
  {| PromptVault.w_dirs := ∅; PromptVault.w_files := ∅;
     PromptVault.w_utcnow := "2024-01-01T00:00:00" |}.

Definition silent_vault : PromptVault.t :=
  {| PromptVault._path := "prompts"; PromptVault._log_file := None |}.

Definition logging_vault : PromptVault.t :=
  {| PromptVault._path := "prompts";
     PromptVault._log_file := Some "logs/usage.jsonl" |}.

(** The record that [log] builds and serialises: the six fixed fields, then
    the pairs of [extra] laid over them. *)
Definition log_record (name : string) (kw : PromptVault.log_kwargs)
  (w : PromptVault.world) : list (string * value) :=
  foldl (λ d kv, PromptVault.dict_set kv.1 kv.2 d)
    [("timestamp", VStr (PromptVault.w_utcnow w)); ("prompt", VStr name);
     ("version", PromptVault.opt_str (PromptVault.version kw));
     ("model", PromptVault.opt_str (PromptVault.model kw));
     ("rendered", PromptVault.opt_str (PromptVault.rendered kw));
     ("response", PromptVault.opt_str (PromptVault.response kw))]
    (default [] (PromptVault.extra kw)).

(** A second file for version 1.2 of [greet], and a directory holding
    both. *)
Definition greet_1_2_bis : PromptVault.file :=
  {| PromptVault.stem := "greet_v1_2_bis";
     PromptVault.data := doc "greet" "1.2" "Hey $name" |}.

Definition tied : PromptVault.store :=
  {| PromptVault.resolved := "/srv/prompts";
     PromptVault.files := [greet_1_2; greet_1_2_bis] |}.

(** A file that names its prompt but gives no version, beside one that
    does. *)
Definition greet_unversioned : PromptVault.file :=
  {| PromptVault.stem := "greet_draft";
     PromptVault.data :=
       {| PromptVault.y_name := Some "greet";
          PromptVault.y_version := None;
          PromptVault.y_template := Some "Yo $name";
          PromptVault.y_description := None;
          PromptVault.y_author := None;
          PromptVault.y_tags := None;
          PromptVault.y_variables := None;
          PromptVault.y_other := [] |} |}.

Definition half_versioned : PromptVault.store :=
  {| PromptVault.resolved := "/srv/prompts";
     PromptVault.files := [greet_1_2; greet_unversioned] |}.

(** Keyword arguments whose [extra] overwrites the [model] field and adds
    a key. *)
Definition kwargs_with_extra : PromptVault.log_kwargs :=
  {| PromptVault.version := Some "1.2"; PromptVault.rendered := None;
     PromptVault.response := None; PromptVault.model := Some "small";
     PromptVault.extra :=
       Some [("model", VStr "large"); ("latency_ms", VInt 12)] |}.

(** Prompts that declare a variable named [self]: tagged [integer], and
    with a default. *)
Definition self_integer : Prompt.t :=
  with_variables (bare "Hi $self") [("self", typed "integer")].

Definition self_default : Prompt.t :=
  with_variables (bare "Hi $self")
    [("self", {| Prompt.vm_required := None;
                 Prompt.vm_default := Some (VStr "x");
                 Prompt.vm_type := None |})].

(** A template whose invalid placeholder comes after the one that lacks a
    value. *)
Definition debt : Prompt.t := bare "$payee owes $5".

(** The nameless draft beside a file whose [name] key is the draft's stem. *)
Definition draft_named : PromptVault.file :=
  {| PromptVault.stem := "draft_final";
     PromptVault.data := doc "draft" "2.0" "Final $topic" |}.

Definition shadowed : PromptVault.store :=
  {| PromptVault.resolved := "/srv/prompts";
     PromptVault.files := [draft_file; draft_named] |}.

(** * Properties *)

Example summarize_default :
  @Prompt.render example_builtins summarize {[ "text" := VStr "X" ]}
  = Ok "Summarize in 100 words: X".
Proof. vm_compute. reflexivity. Qed.

Example summarize_supplied :
  @Prompt.render example_builtins summarize
    (<["max_words" := VInt 30]> {[ "text" := VStr "X" ]})
  = Ok "Summarize in 30 words: X".
Proof. vm_compute. reflexivity. Qed.

Example summarize_missing :
  @Prompt.render example_builtins summarize ∅
  = Raise (KeyError
      "[promptvault] Required variable 'text' missing for prompt 'summarize' v1.0.").
Proof. vm_compute. reflexivity. Qed.

Example extra_variable_substituted :
  @Prompt.render example_builtins (bare "Hi ${who}, $$5 please")
    {[ "who" := VStr "Bob" ]}
  = Ok "Hi Bob, $5 please".
Proof. vm_compute. reflexivity. Qed.

Example invalid_on_second_line :
  @Prompt.render example_builtins (bare ("one" +:+ nl +:+ "two ${x y}")) ∅
  = Raise (ValueError "Invalid placeholder in string: line 2, col 5").
Proof. vm_compute. reflexivity. Qed.

(** ** Validation *)

Lemma bind_raises {A B : Type} (r : result A) (k : A → result B) :
  raises r → raises (r ≫= k).
Proof. destruct r; simpl; tauto. Qed.

Lemma validate_items_app p kwargs pre post :
  Prompt.validate_items p kwargs (pre ++ post)
  = (Prompt.validate_items p kwargs pre ;; Prompt.validate_items p kwargs post).
Proof.
  induction pre as [|item pre IH]; simpl; [reflexivity|].
  destruct (Prompt.validate_var p kwargs item); simpl; [apply IH|reflexivity].
Qed.

(** Validation stops at the first declared variable that fails. *)
Lemma validate_first_failure p kwargs pre item post e :
  Prompt.validate_items p kwargs pre = Ok tt →
  Prompt.validate_var p kwargs item = Raise e →
  Prompt.validate_items p kwargs (pre ++ item :: post) = Raise e.
Proof.
  intros Hpre Hitem. rewrite validate_items_app, Hpre. simpl.
  rewrite Hitem. reflexivity.
Qed.

Lemma validate_some_failure p kwargs pre item post :
  raises (Prompt.validate_var p kwargs item) →
  raises (Prompt.validate_items p kwargs (pre ++ item :: post)).
Proof.
  intros Hitem. rewrite validate_items_app.
  destruct (Prompt.validate_items p kwargs pre) as [[]|]; simpl; [|exact I].
  destruct (Prompt.validate_var p kwargs item); simpl in *; tauto.
Qed.

(** The call binds exactly when no key [self] is supplied. *)
Lemma render_bound `{Builtins} p kwargs :
  kwargs !! "self" = None →
  Prompt.render p kwargs = Prompt.render_body p kwargs.
Proof.
  intros Hself. unfold Prompt.render, Prompt.bind_call. rewrite Hself.
  rewrite bool_decide_eq_false_2 by (intros [? ?]; discriminate).
  reflexivity.
Qed.

Lemma render_unbound `{Builtins} p kwargs :
  is_Some (kwargs !! "self") →
  Prompt.render p kwargs
  = Raise (TypeError
      "Prompt.render() got multiple values for argument 'self'").
Proof.
  intros Hself. unfold Prompt.render, Prompt.bind_call.
  rewrite (bool_decide_eq_true_2 _ Hself). reflexivity.
Qed.

Lemma self_supplied_or_not (kwargs : gmap string value) :
  is_Some (kwargs !! "self") ∨ kwargs !! "self" = None.
Proof. destruct (kwargs !! "self"); eauto. Qed.

Lemma render_validate_raise `{Builtins} p kwargs e :
  kwargs !! "self" = None →
  Prompt._validate p kwargs = Raise e → Prompt.render p kwargs = Raise e.
Proof.
  intros Hself Hval. rewrite render_bound by exact Hself.
  unfold Prompt.render_body. rewrite Hval. reflexivity.
Qed.

Lemma render_validate_raises `{Builtins} p kwargs :
  raises (Prompt._validate p kwargs) → raises (Prompt.render p kwargs).
Proof.
  intros Hval. destruct (self_supplied_or_not kwargs) as [Hself|Hself].
  - rewrite render_unbound by exact Hself. exact I.
  - rewrite render_bound by exact Hself. unfold Prompt.render_body.
    apply bind_raises, Hval.
Qed.

(** The exception of a failed validation is that of the first declared
    variable whose check fails. *)
Lemma validate_items_raise p kwargs items e :
  Prompt.validate_items p kwargs items = Raise e →
  ∃ pre item post,
    items = pre ++ item :: post
    ∧ Prompt.validate_items p kwargs pre = Ok tt
    ∧ Prompt.validate_var p kwargs item = Raise e.
Proof.
  induction items as [|item items IH]; simpl; [discriminate|].
  destruct (Prompt.validate_var p kwargs item) as [[]|e'] eqn:Hitem; simpl.
  - intros Hrest. destruct (IH Hrest) as (pre & it & post & -> & Hpre & Hit).
    exists (item :: pre), it, post. simpl. rewrite Hitem. simpl. auto.
  - intros [= ->]. exists [], item, items. auto.
Qed.

Lemma validate_raise_first p kwargs e :
  Prompt._validate p kwargs = Raise e →
  ∃ pre x meta post,
    Prompt.variables p = pre ++ (x, meta) :: post
    ∧ Prompt.validate_items p kwargs pre = Ok tt
    ∧ Prompt.validate_var p kwargs (x, meta) = Raise e.
Proof.
  intros Hraise. apply validate_items_raise in Hraise
    as (pre & [x meta] & post & Hvars & Hpre & Hitem).
  exists pre, x, meta, post. auto.
Qed.

(** Once the call has bound, a failing declared variable makes [render]
    raise the exception of the first declared variable that fails. *)
Lemma render_first_failure `{Builtins} p kwargs pre item post :
  kwargs !! "self" = None →
  Prompt.variables p = pre ++ item :: post →
  raises (Prompt.validate_var p kwargs item) →
  ∃ pre' y meta' post' e,
    Prompt.variables p = pre' ++ (y, meta') :: post'
    ∧ Prompt.validate_items p kwargs pre' = Ok tt
    ∧ Prompt.validate_var p kwargs (y, meta') = Raise e
    ∧ Prompt.render p kwargs = Raise e.
Proof.
  intros Hself Hvars Hitem.
  destruct (Prompt._validate p kwargs) as [[]|e] eqn:Hval.
  - pose proof (validate_some_failure p kwargs pre item post Hitem) as Hr.
    unfold Prompt._validate in Hval. rewrite Hvars in Hval.
    rewrite Hval in Hr. destruct Hr.
  - destruct (validate_raise_first p kwargs e Hval)
      as (pre' & y & meta' & post' & Hv & Hpre & Hy).
    exists pre', y, meta', post', e. repeat split; try assumption.
    apply render_validate_raise; assumption.
Qed.

Lemma type_map_unknown (tag : string) :
  tag ≠ "str" → tag ≠ "int" → tag ≠ "float" → tag ≠ "bool" →
  Prompt.type_map !! tag = None.
Proof.
  intros. unfold Prompt.type_map.
  rewrite !lookup_insert_ne by congruence. apply lookup_empty.
Qed.

Lemma check_required_supplied p kwargs x meta :
  is_Some (kwargs !! x) → Prompt.check_required p kwargs x meta = Ok tt.
Proof.
  intros Hx. unfold Prompt.check_required.
  rewrite (bool_decide_eq_true_2 _ Hx), !andb_false_r. reflexivity.
Qed.

Lemma check_type_absent p kwargs x meta :
  kwargs !! x = None → Prompt.check_type p kwargs x meta = Ok tt.
Proof.
  intros Hx. unfold Prompt.check_type. rewrite Hx.
  destruct (Prompt.vm_type meta) as [tag|]; [|reflexivity].
  destruct (Prompt.truthy tag); reflexivity.
Qed.

(** A text value under the tag [int] fails the validation step. *)
Lemma validate_var_int_text p kwargs x meta s :
  Prompt.vm_type meta = Some "int" →
  kwargs !! x = Some (VStr s) →
  Prompt.validate_var p kwargs (x, meta)
  = Raise (TypeError (Prompt.type_msg p x "int" "str")).
Proof.
  intros Htag Hx. unfold Prompt.validate_var. simpl.
  rewrite check_required_supplied by (rewrite Hx; eauto). simpl.
  unfold Prompt.check_type. rewrite Htag, Hx. reflexivity.
Qed.

(** A required variable with neither a default nor a supplied value fails
    the validation step. *)
Lemma validate_var_missing p kwargs x meta :
  default true (Prompt.vm_required meta) = true →
  Prompt.vm_default meta = None →
  kwargs !! x = None →
  Prompt.validate_var p kwargs (x, meta)
  = Raise (KeyError (Prompt.required_msg p x)).
Proof.
  intros Hreq Hdef Hx. unfold Prompt.validate_var, Prompt.check_required.
  simpl. rewrite Hreq, Hdef, Hx.
  rewrite !bool_decide_eq_false_2 by (intros [? ?]; discriminate).
  reflexivity.
Qed.

(** C2, as stated, fails: the tag [integer] is not a key of [type_map], so a
    text value supplied for a variable tagged [integer] is rendered; and
    under the tag [int], a supplied key [self] makes the call raise before
    any variable is checked, with a message that names no variable. *)
Lemma C2_integer_tag_accepts_text :
  @Prompt.render example_builtins count_integer {[ "n" := VStr "ten" ]}
  = Ok "Count to ten"
  ∧ ∃ msg,
      @Prompt.render example_builtins count_int
        (<["self" := VInt 1]> {[ "n" := VStr "ten" ]})
      = Raise (TypeError msg)
      ∧ msg ≠ "[promptvault] Variable 'n' in prompt 'demo' expected int, got str.".
Proof.
  split; [vm_compute; reflexivity|].
  eexists. split; [vm_compute; reflexivity|discriminate].
Qed.

(** C2, amended: for a variable declared with the tag [int] and supplied as
    text, [render] never returns.  If a key [self] is supplied the call
    itself raises a [TypeError]; otherwise the exception is that of the
    first declared variable that fails validation, and it is the
    [TypeError] whose message names the variable, the expected tag [int]
    and the actual type [str] when every variable declared before it
    passes. *)
Theorem C2_int_tag_rejects_text `{Builtins} (p : Prompt.t)
    (kwargs : gmap string value) pre x meta post s :
  Prompt.variables p = pre ++ (x, meta) :: post →
  Prompt.vm_type meta = Some "int" →
  kwargs !! x = Some (VStr s) →
  raises (Prompt.render p kwargs)
  ∧ (is_Some (kwargs !! "self") →
     ∃ msg, Prompt.render p kwargs = Raise (TypeError msg))
  ∧ (kwargs !! "self" = None →
     (∃ pre' y meta' post' e,
        Prompt.variables p = pre' ++ (y, meta') :: post'
        ∧ Prompt.validate_items p kwargs pre' = Ok tt
        ∧ Prompt.validate_var p kwargs (y, meta') = Raise e
        ∧ Prompt.render p kwargs = Raise e)
     ∧ (Prompt.validate_items p kwargs pre = Ok tt →
        Prompt.render p kwargs
        = Raise (TypeError
            ("[promptvault] Variable '" +:+ x +:+ "' in prompt '"
               +:+ Prompt.name p +:+ "' expected int, got str.")))).
Proof.
  intros Hvars Htag Hx.
  pose proof (validate_var_int_text p kwargs x meta s Htag Hx) as Hvar.
  split; [|split].
  - apply render_validate_raises. unfold Prompt._validate. rewrite Hvars.
    apply validate_some_failure. rewrite Hvar. exact I.
  - intros Hself. rewrite render_unbound by exact Hself. eauto.
  - intros Hself. split.
    + apply (render_first_failure p kwargs pre (x, meta) post Hself Hvars).
      rewrite Hvar. exact I.
    + intros Hpre. apply render_validate_raise; [exact Hself|].
      unfold Prompt._validate. rewrite Hvars.
      apply (validate_first_failure _ _ _ _ _ _ Hpre Hvar).
Qed.

Lemma C2_int_tag_rejects_text_witness :
  @Prompt.render example_builtins count_int {[ "n" := VStr "ten" ]}
  = Raise (TypeError
      "[promptvault] Variable 'n' in prompt 'demo' expected int, got str.").
Proof.
  refine (proj2 (proj2 (proj2
    (@C2_int_tag_rejects_text example_builtins count_int
       {[ "n" := VStr "ten" ]} [] "n" (typed "int") [] "ten"
       eq_refl eq_refl eq_refl)) eq_refl) eq_refl).
Defined.

(** C3, as stated, fails: [b] is required, has no default and is not
    supplied, yet [render] raises the type error of [a], declared before it,
    and no exception naming [b]; and when a key [self] is supplied the call
    raises a [TypeError] before any variable is looked at. *)
Lemma C3_earlier_failure_wins :
  Prompt.declared "b" (Prompt.variables two_checks) = Some plain
  ∧ ({[ "a" := VStr "one" ]} : gmap string value) !! "b" = None
  ∧ @Prompt.render example_builtins two_checks {[ "a" := VStr "one" ]}
    = Raise (TypeError
        "[promptvault] Variable 'a' in prompt 'demo' expected int, got str.")
  ∧ ({[ "self" := VInt 1 ]} : gmap string value) !! "text" = None
  ∧ ∃ msg, @Prompt.render example_builtins summarize {[ "self" := VInt 1 ]}
           = Raise (TypeError msg).
Proof.
  repeat split; try (vm_compute; reflexivity).
  eexists. vm_compute. reflexivity.
Qed.

(** C3, amended: if a declared variable is required (explicitly or by
    default), has no default and is not supplied, [render] never returns.
    If a key [self] is supplied the call itself raises a [TypeError];
    otherwise the exception is that of the first declared variable that
    fails validation, and it is the [KeyError] whose message names the
    missing variable when every variable declared before it passes.
    Conversely the check of a variable that has a default, or is marked
    [required: false], never raises that exception. *)
Theorem C3_required_variable_missing `{Builtins} (p : Prompt.t)
    (kwargs : gmap string value) :
  (∀ pre x meta post,
     Prompt.variables p = pre ++ (x, meta) :: post →
     default true (Prompt.vm_required meta) = true →
     Prompt.vm_default meta = None →
     kwargs !! x = None →
     raises (Prompt.render p kwargs)
     ∧ (is_Some (kwargs !! "self") →
        ∃ msg, Prompt.render p kwargs = Raise (TypeError msg))
     ∧ (kwargs !! "self" = None →
        (∃ pre' y meta' post' e,
           Prompt.variables p = pre' ++ (y, meta') :: post'
           ∧ Prompt.validate_items p kwargs pre' = Ok tt
           ∧ Prompt.validate_var p kwargs (y, meta') = Raise e
           ∧ Prompt.render p kwargs = Raise e)
        ∧ (Prompt.validate_items p kwargs pre = Ok tt →
           Prompt.render p kwargs
           = Raise (KeyError
               ("[promptvault] Required variable '" +:+ x
                  +:+ "' missing for prompt '" +:+ Prompt.name p +:+ "' v"
                  +:+ Prompt.version p +:+ ".")))))
  ∧ (∀ x meta,
       is_Some (Prompt.vm_default meta)
       ∨ Prompt.vm_required meta = Some false →
       Prompt.check_required p kwargs x meta = Ok tt
       ∧ ∀ arg, Prompt.validate_var p kwargs (x, meta) ≠ Raise (KeyError arg)).
Proof.
  split.
  - intros pre x meta post Hvars Hreq Hdef Hx.
    pose proof (validate_var_missing p kwargs x meta Hreq Hdef Hx) as Hvar.
    split; [|split].
    + apply render_validate_raises. unfold Prompt._validate. rewrite Hvars.
      apply validate_some_failure. rewrite Hvar. exact I.
    + intros Hself. rewrite render_unbound by exact Hself. eauto.
    + intros Hself. split.
      * apply (render_first_failure p kwargs pre (x, meta) post Hself Hvars).
        rewrite Hvar. exact I.
      * intros Hpre. apply render_validate_raise; [exact Hself|].
        unfold Prompt._validate. rewrite Hvars.
        apply (validate_first_failure _ _ _ _ _ _ Hpre Hvar).
  - intros x meta Hopt.
    assert (Prompt.check_required p kwargs x meta = Ok tt) as Hreq.
    { unfold Prompt.check_required.
      destruct Hopt as [Hdef | Hfalse].
      - rewrite (bool_decide_eq_true_2 _ Hdef), andb_false_r. reflexivity.
      - rewrite Hfalse. reflexivity. }
    split; [exact Hreq|].
    intros arg. unfold Prompt.validate_var. simpl. rewrite Hreq. simpl.
    unfold Prompt.check_type.
    repeat (case_match; try discriminate).
Qed.

Lemma C3_required_variable_missing_witness :
  @Prompt.render example_builtins summarize ∅
  = Raise (KeyError
      "[promptvault] Required variable 'text' missing for prompt 'summarize' v1.0.")
  ∧ Prompt.check_required summarize ∅ "max_words"
      {| Prompt.vm_required := Some false;
         Prompt.vm_default := Some (VInt 100);
         Prompt.vm_type := None |} = Ok tt.
Proof.
  destruct (@C3_required_variable_missing example_builtins summarize ∅)
    as [Hmissing Hoptional].
  split.
  - refine (proj2 (proj2 (proj2
      (Hmissing [] "text" _ _ eq_refl eq_refl eq_refl eq_refl)) eq_refl)
      eq_refl).
  - apply Hoptional. right. reflexivity.
Defined.

Lemma check_type_unknown p kwargs x meta :
  (∀ tag, Prompt.vm_type meta = Some tag →
          tag ≠ "str" ∧ tag ≠ "int" ∧ tag ≠ "float" ∧ tag ≠ "bool") →
  Prompt.check_type p kwargs x meta = Ok tt.
Proof.
  intros Htag. unfold Prompt.check_type.
  destruct (Prompt.vm_type meta) as [tag|]; [|reflexivity].
  destruct (Htag tag eq_refl) as (? & ? & ? & ?).
  rewrite type_map_unknown by assumption.
  repeat case_match; reflexivity.
Qed.

Lemma validate_items_no_type_error p kwargs items msg :
  (∀ x meta tag, (x, meta) ∈ items → Prompt.vm_type meta = Some tag →
                 tag ≠ "str" ∧ tag ≠ "int" ∧ tag ≠ "float" ∧ tag ≠ "bool") →
  Prompt.validate_items p kwargs items ≠ Raise (TypeError msg).
Proof.
  induction items as [|[x meta] items IH]; intros Htags; simpl; [discriminate|].
  unfold Prompt.validate_var. simpl.
  rewrite (check_type_unknown p kwargs x meta)
    by (intros tag; apply (Htags x meta tag); left).
  unfold Prompt.check_required. case_match; simpl; [discriminate|].
  apply IH. intros x' meta' tag Hin. apply (Htags x' meta' tag).
  right. exact Hin.
Qed.

(** [Template.substitute] raises nothing but [KeyError], carrying the
    identifier, and [ValueError]. *)
Lemma sub_exn `{Builtins} template mapping ps e :
  Template.sub template mapping ps = Raise e →
  (∃ id, e = KeyError id) ∨ (∃ msg, e = ValueError msg).
Proof.
  induction ps as [|[c|g] ps IH]; simpl; [discriminate| |].
  - destruct (Template.sub template mapping ps); simpl; [discriminate|].
    intros [= <-]. apply IH. reflexivity.
  - destruct (Template.convert template mapping g) as [x|e'] eqn:Hg; simpl.
    + destruct (Template.sub template mapping ps); simpl; [discriminate|].
      intros [= <-]. apply IH. reflexivity.
    + intros [= <-]. destruct g as [|id|id|start]; simpl in Hg.
      * discriminate.
      * destruct (mapping !! id); [discriminate|]. injection Hg as <-. eauto.
      * destruct (mapping !! id); [discriminate|]. injection Hg as <-. eauto.
      * injection Hg as <-. eauto.
Qed.

Lemma substitute_exn `{Builtins} template mapping e :
  Template.substitute template mapping = Raise e →
  (∃ id, e = KeyError id) ∨ (∃ msg, e = ValueError msg).
Proof. apply sub_exn. Qed.

(** C9, as stated, fails: for a declared variable named [self] whose tag
    is [integer], supplying the variable makes [render] raise a
    [TypeError], because the key collides with the receiver of the call. *)
Lemma C9_self_raises_type_error :
  Prompt.declared "self" (Prompt.variables self_integer)
  = Some (typed "integer")
  ∧ ∃ msg, @Prompt.render example_builtins self_integer
             {[ "self" := VStr "x" ]} = Raise (TypeError msg).
Proof. split; [reflexivity|]. eexists. vm_compute. reflexivity. Qed.

(** C9, amended: a tag other than [str], [int], [float] and [bool] switches
    the type check of its variable off, whatever value is supplied: the
    check passes and the validation step of the variable raises no
    [TypeError]; and when no key [self] is supplied, a prompt all of whose
    tags are such never has [render] raise one. *)
Theorem C9_unknown_tag_unchecked `{Builtins} (p : Prompt.t)
    (kwargs : gmap string value) :
  (∀ x meta tag,
     Prompt.vm_type meta = Some tag →
     tag ≠ "str" → tag ≠ "int" → tag ≠ "float" → tag ≠ "bool" →
     Prompt.check_type p kwargs x meta = Ok tt
     ∧ ∀ msg, Prompt.validate_var p kwargs (x, meta) ≠ Raise (TypeError msg))
  ∧ (kwargs !! "self" = None →
     (∀ x meta tag,
        (x, meta) ∈ Prompt.variables p →
        Prompt.vm_type meta = Some tag →
        tag ≠ "str" ∧ tag ≠ "int" ∧ tag ≠ "float" ∧ tag ≠ "bool") →
     ∀ msg, Prompt.render p kwargs ≠ Raise (TypeError msg)).
Proof.
  split.
  - intros x meta tag Htag H1 H2 H3 H4.
    assert (Prompt.check_type p kwargs x meta = Ok tt) as Hty.
    { apply check_type_unknown. intros tag' Htag'.
      rewrite Htag in Htag'. injection Htag' as <-. auto. }
    split; [exact Hty|].
    intros msg. unfold Prompt.validate_var. simpl. rewrite Hty.
    unfold Prompt.check_required. case_match; simpl; discriminate.
  - intros Hself Htags msg. rewrite render_bound by exact Hself.
    unfold Prompt.render_body.
    destruct (Prompt._validate p kwargs) as [[]|e] eqn:Hval; simpl.
    + destruct (Template.substitute _ _) as [s|e] eqn:Hsub; [discriminate|].
      apply substitute_exn in Hsub as [[id ->] | [msg' ->]]; discriminate.
    + intros [= ->]. revert Hval. unfold Prompt._validate.
      apply validate_items_no_type_error.
      intros x meta tag Hin Htag. apply (Htags x meta tag Hin Htag).
Qed.

Lemma C9_unknown_tag_unchecked_witness :
  Prompt.check_type count_integer {[ "n" := VStr "ten" ]} "n"
    (typed "integer") = Ok tt
  ∧ ∀ msg, @Prompt.render example_builtins count_integer
             {[ "n" := VStr "ten" ]} ≠ Raise (TypeError msg).
Proof.
  destruct (@C9_unknown_tag_unchecked example_builtins count_integer
              {[ "n" := VStr "ten" ]}) as [Hvar Hrender].
  split.
  - refine (proj1 (Hvar "n" (typed "integer") "integer" eq_refl _ _ _ _));
      discriminate.
  - apply (Hrender eq_refl). intros x meta tag Hin Htag.
    apply list_elem_of_singleton in Hin. injection Hin as -> ->.
    injection Htag as <-. repeat split; discriminate.
Defined.

(** ** Default merging *)

Lemma declared_not_key k items :
  k ∉ items.*1 → Prompt.declared k items = None.
Proof.
  induction items as [|[x meta] items IH]; simpl; [reflexivity|].
  intros Hk. apply not_elem_of_cons in Hk as [Hne Hk].
  destruct (decide (x = k)); [congruence|]. apply IH. exact Hk.
Qed.

Lemma declared_elem k meta items :
  NoDup items.*1 → (k, meta) ∈ items → Prompt.declared k items = Some meta.
Proof.
  induction items as [|[x m] items IH]; simpl; intros Hnd Hin.
  - apply elem_of_nil in Hin. contradiction.
  - apply NoDup_cons in Hnd as [Hx Hnd].
    apply elem_of_cons in Hin as [[= <- <-] | Hin].
    + destruct (decide (k = k)); congruence.
    + destruct (decide (x = k)) as [->|]; [|apply IH; assumption].
      exfalso. apply Hx. apply list_elem_of_fmap.
      exists (k, meta). split; [reflexivity|exact Hin].
Qed.

(** What the loop of [_apply_defaults] leaves under each key. *)
Lemma merge_items_lookup kwargs items (merged : gmap string value) k :
  NoDup items.*1 →
  Prompt.merge_items kwargs items merged !! k
  = match Prompt.declared k items with
    | Some meta =>
        match kwargs !! k with
        | Some v => Some v
        | None =>
            match Prompt.vm_default meta with
            | Some d => Some d
            | None => merged !! k
            end
        end
    | None => merged !! k
    end.
Proof.
  revert merged.
  induction items as [|[x meta] items IH]; intros merged Hnd; simpl;
    [reflexivity|].
  apply NoDup_cons in Hnd as [Hx Hnd]. rewrite IH by exact Hnd.
  destruct (decide (x = k)) as [->|Hne].
  - rewrite declared_not_key by exact Hx.
    destruct (kwargs !! k); [apply lookup_insert_eq|].
    destruct (Prompt.vm_default meta); [apply lookup_insert_eq|reflexivity].
  - assert (∀ v, <[x:=v]> merged !! k = merged !! k) as Hins
      by (intros v; apply lookup_insert_ne; exact Hne).
    destruct (Prompt.declared k items) as [meta'|].
    + destruct (kwargs !! k); [reflexivity|].
      destruct (Prompt.vm_default meta'); [reflexivity|].
      destruct (kwargs !! x); [apply Hins|].
      destruct (Prompt.vm_default meta); [apply Hins|reflexivity].
    + destruct (kwargs !! x); [apply Hins|].
      destruct (Prompt.vm_default meta); [apply Hins|reflexivity].
Qed.

(** The working mapping, key by key. *)
Lemma apply_defaults_lookup p kwargs k :
  Prompt.unique_keys p →
  Prompt._apply_defaults p kwargs !! k
  = match kwargs !! k with
    | Some v => Some v
    | None => Prompt.declared k (Prompt.variables p) ≫= Prompt.vm_default
    end.
Proof.
  intros Hnd. unfold Prompt._apply_defaults, Prompt.update.
  pose proof (merge_items_lookup kwargs _ ∅ k Hnd) as Hm.
  rewrite lookup_empty in Hm.
  set (merged := Prompt.merge_items kwargs (Prompt.variables p) ∅) in *.
  rewrite lookup_union, map_lookup_filter. cbn [fst].
  destruct (kwargs !! k) as [v|]; simpl.
  - destruct (Prompt.declared k (Prompt.variables p)).
    + rewrite Hm. rewrite option_guard_False by discriminate. reflexivity.
    + rewrite Hm. rewrite option_guard_True by reflexivity. reflexivity.
  - rewrite Hm.
    destruct (Prompt.declared k (Prompt.variables p)) as [meta|]; simpl;
      [|reflexivity].
    destruct (Prompt.vm_default meta); reflexivity.
Qed.




(** ** Rendering with defaults *)

Lemma validate_items_all_ok p kwargs items :
  (∀ item, item ∈ items → Prompt.validate_var p kwargs item = Ok tt) →
  Prompt.validate_items p kwargs items = Ok tt.
Proof.
  induction items as [|item items IH]; intros Hall; simpl; [reflexivity|].
  rewrite (Hall item) by left. simpl.
  apply IH. intros item' Hin. apply Hall. right. exact Hin.
Qed.

Lemma defaults_of_lookup p k :
  Prompt.unique_keys p →
  defaults_of p !! k
  = Prompt.declared k (Prompt.variables p) ≫= Prompt.vm_default.
Proof.
  unfold Prompt.unique_keys, Prompt.keys, defaults_of.
  induction (Prompt.variables p) as [|[x meta] items IH]; intros Hnd;
    [apply lookup_empty|].
  apply NoDup_cons in Hnd as [Hx Hnd]. specialize (IH Hnd).
  cbn [omap list_omap Prompt.declared fst snd].
  destruct (decide (x = k)) as [->|Hne].
  - rewrite declared_not_key in IH by exact Hx. cbn [mbind option_bind].
    destruct (Prompt.vm_default meta); cbn; [apply lookup_insert_eq|].
    exact IH.
  - destruct (Prompt.vm_default meta); cbn; [|exact IH].
    rewrite lookup_insert_ne by exact Hne. exact IH.
Qed.

Lemma check_type_conforms p kwargs x meta v :
  kwargs !! x = Some v → conforms meta v = true →
  Prompt.check_type p kwargs x meta = Ok tt.
Proof.
  unfold conforms, Prompt.check_type. intros -> Hok.
  destruct (Prompt.vm_type meta) as [tag|]; [|reflexivity].
  destruct (Prompt.truthy tag); [|reflexivity].
  destruct (Prompt.type_map !! tag); [|reflexivity].
  rewrite Hok. reflexivity.
Qed.

(** C6, as stated, fails: defaults are not type-checked, supplied values
    are.  With the text default [ten] under the tag [int], rendering with
    nothing supplied succeeds and rendering with the default supplied
    raises.  So it does for a defaulted variable named [self]: supplied, it
    collides with the receiver of the call. *)
Lemma C6_default_not_type_checked :
  defaults_of count_text_default = {[ "n" := VStr "ten" ]}
  ∧ @Prompt.render example_builtins count_text_default ∅ = Ok "Count to ten"
  ∧ @Prompt.render example_builtins count_text_default
      (defaults_of count_text_default)
    = Raise (TypeError
        "[promptvault] Variable 'n' in prompt 'demo' expected int, got str.")
  ∧ defaults_of self_default = {[ "self" := VStr "x" ]}
  ∧ @Prompt.render example_builtins self_default ∅ = Ok "Hi x"
  ∧ ∃ msg, @Prompt.render example_builtins self_default
             (defaults_of self_default) = Raise (TypeError msg).
Proof.
  repeat split; try (vm_compute; reflexivity).
  eexists. vm_compute. reflexivity.
Qed.

(** C6, amended: when no declared variable is named [self] and every
    declared variable carries a default that passes the type check of its
    own tag, rendering with nothing supplied and rendering with the
    defaults supplied give the same result. *)
Theorem C6_defaults_round_trip `{Builtins} (p : Prompt.t) :
  Prompt.unique_keys p →
  "self" ∉ Prompt.keys p →
  (∀ x meta, (x, meta) ∈ Prompt.variables p →
     ∃ d, Prompt.vm_default meta = Some d ∧ conforms meta d = true) →
  Prompt.render p ∅ = Prompt.render p (defaults_of p).
Proof.
  intros Hnd Hself Hdef.
  assert (Prompt._validate p ∅ = Ok tt) as Hempty.
  { apply validate_items_all_ok. intros [x meta] Hin.
    destruct (Hdef x meta Hin) as (d & Hd & _).
    unfold Prompt.validate_var, Prompt.check_required. simpl.
    rewrite Hd, (bool_decide_eq_true_2 (is_Some (Some d))) by eauto.
    rewrite andb_false_r. simpl. apply check_type_absent, lookup_empty. }
  assert (Prompt._validate p (defaults_of p) = Ok tt) as Hfull.
  { apply validate_items_all_ok. intros [x meta] Hin.
    destruct (Hdef x meta Hin) as (d & Hd & Hok).
    assert (defaults_of p !! x = Some d) as Hx.
    { rewrite defaults_of_lookup by exact Hnd.
      rewrite (declared_elem x meta _ Hnd Hin). exact Hd. }
    unfold Prompt.validate_var. simpl.
    rewrite check_required_supplied by (rewrite Hx; eauto). simpl.
    apply (check_type_conforms _ _ _ _ d Hx Hok). }
  assert (Prompt._apply_defaults p ∅
          = Prompt._apply_defaults p (defaults_of p)) as Hmerged.
  { apply map_eq. intros k. rewrite !apply_defaults_lookup by exact Hnd.
    rewrite lookup_empty, defaults_of_lookup by exact Hnd.
    destruct (Prompt.declared k (Prompt.variables p) ≫= Prompt.vm_default);
      reflexivity. }
  assert (defaults_of p !! "self" = None) as Hnone.
  { rewrite defaults_of_lookup by exact Hnd.
    rewrite declared_not_key by exact Hself. reflexivity. }
  rewrite !render_bound by (exact Hnone || apply lookup_empty).
  unfold Prompt.render_body. rewrite Hempty, Hfull, Hmerged. reflexivity.
Qed.

Lemma C6_defaults_round_trip_witness :
  @Prompt.render example_builtins count_int_default ∅
  = @Prompt.render example_builtins count_int_default
      (defaults_of count_int_default).
Proof.
  apply (@C6_defaults_round_trip example_builtins count_int_default).
  - unfold Prompt.unique_keys. simpl. apply NoDup_singleton.
  - intros Hin. apply list_elem_of_singleton in Hin. discriminate.
  - intros x meta Hin. apply list_elem_of_singleton in Hin.
    injection Hin as -> ->. exists (VInt 10). split; reflexivity.
Defined.

(** ** Substitution *)

(** In a template without invalid placeholder every placeholder is
    reached. *)
Lemma well_formed_reaches template x :
  Template.well_formed template →
  x ∈ Template.placeholders template →
  Template.reaches template x.
Proof.
  unfold Template.well_formed, Template.placeholders, Template.reaches.
  intros Hwf Hin. apply list_elem_of_omap in Hin as (pc & Hpc & Hname).
  apply list_elem_of_split in Hpc as (before & after & Hsplit).
  destruct pc as [c|g]; [discriminate|].
  exists before, g, after. split; [exact Hsplit|]. split; [exact Hname|].
  intros start Hs. apply (Hwf start). rewrite Hsplit.
  apply elem_of_app. left. exact Hs.
Qed.




Example greeting_without_title :
  @Prompt.render example_builtins greeting {[ "name" := VStr "Ann" ]}
  = Raise (KeyError
      "[promptvault] Missing variable 'title' in prompt 'demo' v1.0. Expected variables: ['name', 'title']").
Proof. vm_compute. reflexivity. Qed.

Lemma greeting_unique_keys : Prompt.unique_keys greeting.
Proof.
  unfold Prompt.unique_keys. simpl. apply NoDup_cons. split.
  - intros Hin. apply list_elem_of_singleton in Hin. discriminate.
  - apply NoDup_singleton.
Qed.



Example debt_missing_payee :
  @Prompt.render example_builtins debt ∅
  = Raise (KeyError
      "[promptvault] Missing variable 'payee' in prompt 'demo' v1.0. Expected variables: []").
Proof. vm_compute. reflexivity. Qed.


(** ** The vault *)

(** C1 (the code departs from it): [versions] and the latest-version branch
    of [load] sort version strings with [<] on text.  With versions 1.2 and
    1.10 on disk, in either listing order, [versions] puts 1.10 first and
    [load] without a version returns the 1.2 record. *)
Theorem C1_versions_sorted_as_text :
  str_lt "1.10" "1.2" = true
  ∧ PromptVault.versions two_versions "greet" = Ok ["1.10"; "1.2"]
  ∧ PromptVault.versions two_versions_rev "greet" = Ok ["1.10"; "1.2"]
  ∧ @PromptVault.load example_builtins two_versions "greet" None
    = PromptVault._parse greet_1_2
  ∧ @PromptVault.load example_builtins two_versions_rev "greet" None
    = PromptVault._parse greet_1_2
  ∧ ∃ p, PromptVault._parse greet_1_2 = Ok p ∧ Prompt.version p = "1.2".
Proof.
  repeat split; try (vm_compute; reflexivity).
  eexists. split; [reflexivity|reflexivity].
Qed.

Example log_with_sink_appends :
  @PromptVault.log example_builtins logging_vault "greet" no_kwargs empty_world
  = (Ok tt,
     {| PromptVault.w_dirs := {[ "logs" ]};
        PromptVault.w_files :=
          {[ "logs/usage.jsonl" :=
               "{" +:+ dquote +:+ "timestamp" +:+ dquote +:+ ": " +:+ dquote
                 +:+ "2024-01-01T00:00:00" +:+ dquote +:+ ", " +:+ dquote
                 +:+ "prompt" +:+ dquote +:+ ": " +:+ dquote +:+ "greet"
                 +:+ dquote +:+ ", " +:+ dquote +:+ "version" +:+ dquote
                 +:+ ": null, " +:+ dquote +:+ "model" +:+ dquote
                 +:+ ": null, " +:+ dquote +:+ "rendered" +:+ dquote
                 +:+ ": null, " +:+ dquote +:+ "response" +:+ dquote
                 +:+ ": null}" +:+ nl ]};
        PromptVault.w_utcnow := "2024-01-01T00:00:00" |}).
Proof. vm_compute. reflexivity. Qed.

Example init_missing_directory :
  @PromptVault.__init__ example_builtins false "prompts" None
  = Raise (FileNotFoundError
      ("[promptvault] Prompt directory not found: /srv/prompts" +:+ nl
         +:+ "Create it and add your .yaml prompt files there.")).
Proof. reflexivity. Qed.

(** C8: on a vault built without a log file, [log] returns normally and
    leaves the world as it found it, whatever its arguments; a vault built
    with no [log_file], or an empty one, is such a vault. *)
Theorem C8_log_without_sink `{Builtins} :
  (∀ path, PromptVault.__init__ true path None
           = Ok {| PromptVault._path := path;
                   PromptVault._log_file := None |})
  ∧ (∀ path, PromptVault.__init__ true path (Some "")
             = Ok {| PromptVault._path := path;
                     PromptVault._log_file := None |})
  ∧ (∀ self name kw w,
       PromptVault._log_file self = None →
       PromptVault.log self name kw w = (Ok tt, w)).
Proof.
  repeat split.
  intros self name kw w Hnone. unfold PromptVault.log. rewrite Hnone.
  reflexivity.
Qed.

Lemma C8_log_without_sink_witness :
  @PromptVault.log example_builtins silent_vault "greet" no_kwargs empty_world
  = (Ok tt, empty_world).
Proof.
  apply (proj2 (proj2 (@C8_log_without_sink example_builtins))).
  reflexivity.
Defined.

(** C7: given that the diff routine yields nothing on equal line sequences,
    [diff] of a version against itself is the sentinel whenever that version
    loads (and the exception of [load] otherwise), and so is [diff] of any
    two versions that load with equal templates. *)
Theorem C7_diff_identical `{Builtins} (st : PromptVault.store)
    (name : string) :
  (∀ lines fromfile tofile, unified_diff lines lines fromfile tofile = []) →
  (∀ v, PromptVault.diff st name v v
        = (PromptVault.load st name (Some v) ;; Ok "(no differences)"))
  ∧ (∀ version_a version_b a b,
       PromptVault.load st name (Some version_a) = Ok a →
       PromptVault.load st name (Some version_b) = Ok b →
       Prompt.template a = Prompt.template b →
       PromptVault.diff st name version_a version_b = Ok "(no differences)").
Proof.
  intros Hsame. split.
  - intros v. unfold PromptVault.diff.
    destruct (PromptVault.load st name (Some v)) as [a|e]; simpl;
      [|reflexivity].
    rewrite Hsame. reflexivity.
  - intros version_a version_b a b Ha Hb Heq. unfold PromptVault.diff.
    rewrite Ha, Hb. simpl. rewrite Heq, Hsame. reflexivity.
Qed.

Lemma example_unified_diff_same lines fromfile tofile :
  example_unified_diff lines lines fromfile tofile = [].
Proof. unfold example_unified_diff. case_decide; congruence. Qed.

Lemma C7_diff_identical_witness :
  @PromptVault.diff example_builtins two_versions "greet" "1.2" "1.2"
  = Ok "(no differences)".
Proof.
  apply (proj1 (@C7_diff_identical example_builtins two_versions "greet"
                  example_unified_diff_same) "1.2").
Defined.

Lemma elem_of_insert_sorted {A} (lt : A → A → bool) x y l :
  y ∈ insert_sorted lt x l ↔ y = x ∨ y ∈ l.
Proof.
  induction l as [|z l IH]; simpl.
  - rewrite list_elem_of_singleton, elem_of_nil. tauto.
  - destruct (lt z x).
    + rewrite !elem_of_cons, IH. tauto.
    + rewrite !elem_of_cons. tauto.
Qed.

(** Sorting keeps the elements. *)
Lemma elem_of_sorted {A} (lt : A → A → bool) y l :
  y ∈ sorted lt l ↔ y ∈ l.
Proof.
  induction l as [|x l IH]; simpl; [reflexivity|].
  rewrite elem_of_insert_sorted, elem_of_cons, IH. reflexivity.
Qed.

Lemma find_files_name st name g :
  g ∈ PromptVault._find_files st name ↔
  PromptVault.y_name (PromptVault.data g) = Some name
  ∧ g ∈ PromptVault.files st.
Proof.
  unfold PromptVault._find_files. rewrite list_elem_of_filter. reflexivity.
Qed.

Lemma find_files_none st name :
  (∀ g, g ∈ PromptVault.files st →
        PromptVault.y_name (PromptVault.data g) ≠ Some name) →
  PromptVault._find_files st name = [].
Proof.
  intros Hnone.
  destruct (PromptVault._find_files st name) as [|g l] eqn:Hfind;
    [reflexivity|].
  assert (g ∈ PromptVault._find_files st name) as Hin
    by (rewrite Hfind; left).
  apply find_files_name in Hin as [Hname Hin].
  destruct (Hnone g Hin Hname).
Qed.

(** C10, as stated, fails: beside the file [draft.yaml] without a [name]
    key lies a file whose [name] key is [draft]; the stem [draft] is listed
    and [load], [versions] and [diff] of it find the other file instead of
    raising the not-found exception. *)
Lemma C10_stem_shadowed_by_name :
  draft_file ∈ PromptVault.files shadowed
  ∧ PromptVault.y_name (PromptVault.data draft_file) = None
  ∧ PromptVault.stem draft_file ∈ PromptVault.list shadowed
  ∧ (∃ p, @PromptVault.load example_builtins shadowed "draft" None = Ok p
          ∧ Prompt.name p = "draft" ∧ Prompt.version p = "2.0"
          ∧ Prompt.template p = "Final $topic")
  ∧ (∃ p, @PromptVault.load example_builtins shadowed "draft" (Some "2.0")
          = Ok p)
  ∧ PromptVault.versions shadowed "draft" = Ok ["2.0"]
  ∧ @PromptVault.diff example_builtins shadowed "draft" "2.0" "2.0"
    = Ok "(no differences)".
Proof.
  split; [left|]. split; [reflexivity|]. split.
  - unfold PromptVault.list. apply elem_of_sorted, elem_of_elements.
    apply elem_of_list_to_set, list_elem_of_fmap.
    exists draft_file. split; [reflexivity|left].
  - split; [eexists; vm_compute; repeat split|].
    split; [eexists; vm_compute; reflexivity|].
    split; vm_compute; reflexivity.
Qed.

(** C10, amended: a file without a [name] key puts its stem into [list];
    the files that [load], [versions] and [diff] consider are those whose
    [name] key equals the requested name, never that file; so when no file
    carries the stem as its [name], [load] and [diff] of that listed name
    raise the not-found exception and [versions] is empty. *)
Theorem C10_listed_stem_not_loadable `{Builtins} (st : PromptVault.store)
    (f : PromptVault.file) :
  f ∈ PromptVault.files st →
  PromptVault.y_name (PromptVault.data f) = None →
  PromptVault.stem f ∈ PromptVault.list st
  ∧ (∀ name g, g ∈ PromptVault._find_files st name →
               PromptVault.y_name (PromptVault.data g) = Some name ∧ g ≠ f)
  ∧ ((∀ g, g ∈ PromptVault.files st →
           PromptVault.y_name (PromptVault.data g)
           ≠ Some (PromptVault.stem f)) →
     (∀ version,
        PromptVault.load st (PromptVault.stem f) version
        = Raise (FileNotFoundError
            ("[promptvault] No prompt named '" +:+ PromptVault.stem f
               +:+ "' found in " +:+ PromptVault.resolved st +:+ "." +:+ nl
               +:+ "Available prompts: "
               +:+ repr_list (PromptVault.list st))))
     ∧ PromptVault.versions st (PromptVault.stem f) = Ok []
     ∧ ∀ version_a version_b,
         ∃ msg, PromptVault.diff st (PromptVault.stem f) version_a version_b
                = Raise (FileNotFoundError msg)).
Proof.
  intros Hin Hname. split; [|split].
  - unfold PromptVault.list. apply elem_of_sorted, elem_of_elements.
    apply elem_of_list_to_set, list_elem_of_fmap.
    exists f. rewrite Hname. split; [reflexivity|exact Hin].
  - intros name g Hg. apply find_files_name in Hg as [Hg _].
    split; [exact Hg|]. intros ->. congruence.
  - intros Hnone.
    pose proof (find_files_none st (PromptVault.stem f) Hnone) as Hfind.
    assert (∀ version,
        PromptVault.load st (PromptVault.stem f) version
        = Raise (FileNotFoundError
            ("[promptvault] No prompt named '" +:+ PromptVault.stem f
               +:+ "' found in " +:+ PromptVault.resolved st +:+ "." +:+ nl
               +:+ "Available prompts: "
               +:+ repr_list (PromptVault.list st)))) as Hload.
    { intros version. unfold PromptVault.load. rewrite Hfind. reflexivity. }
    split; [exact Hload|]. split.
    + unfold PromptVault.versions. rewrite Hfind. reflexivity.
    + intros version_a version_b. eexists. unfold PromptVault.diff.
      rewrite (Hload (Some version_a)). reflexivity.
Qed.

Lemma C10_listed_stem_not_loadable_witness :
  "draft" ∈ PromptVault.list drafts
  ∧ ∀ version,
      @PromptVault.load example_builtins drafts "draft" version
      = Raise (FileNotFoundError
          ("[promptvault] No prompt named 'draft' found in /srv/prompts."
             +:+ nl +:+ "Available prompts: ['draft']")).
Proof.
  assert (draft_file ∈ PromptVault.files drafts) as Hin by left.
  destruct (@C10_listed_stem_not_loadable example_builtins drafts draft_file
              Hin eq_refl) as (Hlist & _ & Hload).
  split; [exact Hlist|].
  refine (proj1 (Hload _)).
  intros g Hg. apply list_elem_of_singleton in Hg. rewrite Hg. discriminate.
Defined.

(** * Further properties *)

(** ** What validation accepts and why it raises *)

Lemma check_required_ok_iff p kwargs x meta :
  Prompt.check_required p kwargs x meta = Ok tt ↔
  (default true (Prompt.vm_required meta) = true →
   is_Some (Prompt.vm_default meta) ∨ is_Some (kwargs !! x)).
Proof.
  unfold Prompt.check_required.
  destruct (default true (Prompt.vm_required meta)); simpl;
    [|split; [discriminate|reflexivity]].
  destruct (decide (is_Some (Prompt.vm_default meta))) as [Hd|Hd].
  { rewrite (bool_decide_eq_true_2 _ Hd). simpl. split; auto. }
  rewrite (bool_decide_eq_false_2 _ Hd). simpl.
  destruct (decide (is_Some (kwargs !! x))) as [Hx|Hx].
  { rewrite (bool_decide_eq_true_2 _ Hx). simpl. split; auto. }
  rewrite (bool_decide_eq_false_2 _ Hx). simpl.
  split; [discriminate|]. intros Hreq. destruct (Hreq eq_refl); tauto.
Qed.

Lemma check_type_ok_iff p kwargs x meta :
  Prompt.check_type p kwargs x meta = Ok tt ↔
  (∀ v, kwargs !! x = Some v → conforms meta v = true).
Proof.
  unfold Prompt.check_type, conforms.
  destruct (Prompt.vm_type meta) as [tag|]; [|split; auto].
  destruct tag as [|c tag]; [split; auto|]. simpl.
  destruct (kwargs !! x) as [v|]; [|split; [discriminate 2|reflexivity]].
  destruct (Prompt.type_map !! String c tag) as [ty|]; [|split; auto].
  destruct (isinstance v ty) eqn:Hinst; simpl.
  - split; [|reflexivity]. intros _ v' [= <-]. exact Hinst.
  - split; [discriminate|]. intros Hv.
    rewrite (Hv v eq_refl) in Hinst. discriminate.
Qed.

Lemma validate_var_ok_iff p kwargs x meta :
  Prompt.validate_var p kwargs (x, meta) = Ok tt ↔
  Prompt.check_required p kwargs x meta = Ok tt
  ∧ Prompt.check_type p kwargs x meta = Ok tt.
Proof.
  unfold Prompt.validate_var. simpl.
  destruct (Prompt.check_required p kwargs x meta) as [[]|e]; simpl.
  - tauto.
  - split; [discriminate|]. intros [? _]. discriminate.
Qed.

Lemma validate_items_ok_iff p kwargs items :
  Prompt.validate_items p kwargs items = Ok tt ↔
  ∀ item, item ∈ items → Prompt.validate_var p kwargs item = Ok tt.
Proof.
  split; [|apply validate_items_all_ok].
  induction items as [|item items IH]; simpl; intros Hok item' Hin.
  - apply elem_of_nil in Hin. contradiction.
  - destruct (Prompt.validate_var p kwargs item) as [[]|e] eqn:Hitem;
      simpl in Hok; [|discriminate].
    apply elem_of_cons in Hin as [->|Hin]; [exact Hitem|].
    apply IH; assumption.
Qed.

(** X1: [_validate] passes exactly when every declared variable that is
    required is defaulted or supplied, and every supplied declared variable
    passes the type check of its tag. *)
Theorem validate_ok_iff (p : Prompt.t) (kwargs : gmap string value) :
  Prompt._validate p kwargs = Ok tt ↔
  ∀ x meta, (x, meta) ∈ Prompt.variables p →
    (default true (Prompt.vm_required meta) = true →
     is_Some (Prompt.vm_default meta) ∨ is_Some (kwargs !! x))
    ∧ (∀ v, kwargs !! x = Some v → conforms meta v = true).
Proof.
  unfold Prompt._validate. rewrite validate_items_ok_iff. split.
  - intros Hall x meta Hin.
    apply Hall, validate_var_ok_iff in Hin as [Hreq Hty].
    split; [apply (check_required_ok_iff p), Hreq
           |apply (check_type_ok_iff p), Hty].
  - intros Hall [x meta] Hin. destruct (Hall x meta Hin) as [Hreq Hty].
    apply validate_var_ok_iff.
    split; [apply check_required_ok_iff, Hreq|apply check_type_ok_iff, Hty].
Qed.

Lemma validate_var_raise p kwargs x meta e :
  Prompt.validate_var p kwargs (x, meta) = Raise e →
  (e = KeyError (Prompt.required_msg p x)
   ∧ default true (Prompt.vm_required meta) = true
   ∧ Prompt.vm_default meta = None ∧ kwargs !! x = None)
  ∨ (∃ v tag ty,
       kwargs !! x = Some v ∧ Prompt.vm_type meta = Some tag
       ∧ Prompt.type_map !! tag = Some ty ∧ isinstance v ty = false
       ∧ e = TypeError (Prompt.type_msg p x tag (type_name v))).
Proof.
  unfold Prompt.validate_var, Prompt.check_required, Prompt.check_type. simpl.
  destruct (default true (Prompt.vm_required meta)) eqn:Hreq; simpl.
  - destruct (Prompt.vm_default meta) as [d|] eqn:Hd.
    + rewrite (bool_decide_eq_true_2 (is_Some (Some d))) by eauto. simpl.
      intros He. right. revert He.
      destruct (Prompt.vm_type meta) as [tag|]; [|discriminate].
      destruct (Prompt.truthy tag); [|discriminate].
      destruct (kwargs !! x) as [v|]; [|discriminate].
      destruct (Prompt.type_map !! tag) as [ty|] eqn:Hty; [|discriminate].
      destruct (isinstance v ty) eqn:Hinst; simpl; [discriminate|].
      intros [= <-]. exists v, tag, ty. auto.
    + rewrite (bool_decide_eq_false_2 (is_Some None))
        by (intros [? ?]; discriminate). simpl.
      destruct (kwargs !! x) as [v|] eqn:Hx.
      * rewrite (bool_decide_eq_true_2 (is_Some (Some v))) by eauto. simpl.
        intros He. right. revert He.
        destruct (Prompt.vm_type meta) as [tag|]; [|discriminate].
        destruct (Prompt.truthy tag); [|discriminate].
        destruct (Prompt.type_map !! tag) as [ty|] eqn:Hty; [|discriminate].
        destruct (isinstance v ty) eqn:Hinst; simpl; [discriminate|].
        intros [= <-]. exists v, tag, ty. auto.
      * rewrite (bool_decide_eq_false_2 (is_Some None))
          by (intros [? ?]; discriminate). simpl.
        intros [= <-]. left. auto.
  - intros He. right. revert He.
    destruct (Prompt.vm_type meta) as [tag|]; [|discriminate].
    destruct (Prompt.truthy tag); [|discriminate].
    destruct (kwargs !! x) as [v|]; [|discriminate].
    destruct (Prompt.type_map !! tag) as [ty|] eqn:Hty; [|discriminate].
    destruct (isinstance v ty) eqn:Hinst; simpl; [discriminate|].
    intros [= <-]. exists v, tag, ty. auto.
Qed.

(** X2: every exception of [_validate] is justified by a declared variable:
    a [KeyError] by one that is required, has no default and is not
    supplied; a [TypeError] by one whose supplied value is no instance of
    the class its tag names.  Every variable declared before it passes. *)
Theorem validate_raise_sound (p : Prompt.t) (kwargs : gmap string value) e :
  Prompt._validate p kwargs = Raise e →
  ∃ pre x meta post,
    Prompt.variables p = pre ++ (x, meta) :: post
    ∧ Prompt.validate_items p kwargs pre = Ok tt
    ∧ ((e = KeyError (Prompt.required_msg p x)
        ∧ default true (Prompt.vm_required meta) = true
        ∧ Prompt.vm_default meta = None ∧ kwargs !! x = None)
       ∨ (∃ v tag ty,
            kwargs !! x = Some v ∧ Prompt.vm_type meta = Some tag
            ∧ Prompt.type_map !! tag = Some ty ∧ isinstance v ty = false
            ∧ e = TypeError (Prompt.type_msg p x tag (type_name v)))).
Proof.
  intros Hraise. apply validate_raise_first in Hraise
    as (pre & x & meta & post & Hvars & Hpre & Hitem).
  exists pre, x, meta, post. repeat split; [exact Hvars|exact Hpre|].
  apply validate_var_raise. exact Hitem.
Qed.

Lemma validate_raise_sound_witness :
  ∃ pre x meta post,
    Prompt.variables two_checks = pre ++ (x, meta) :: post
    ∧ Prompt.validate_items two_checks {[ "a" := VInt 1 ]} pre = Ok tt
    ∧ ((KeyError
          "[promptvault] Required variable 'b' missing for prompt 'demo' v1.0."
        = KeyError (Prompt.required_msg two_checks x)
        ∧ default true (Prompt.vm_required meta) = true
        ∧ Prompt.vm_default meta = None
        ∧ ({[ "a" := VInt 1 ]} : gmap string value) !! x = None)
       ∨ (∃ v tag ty,
            ({[ "a" := VInt 1 ]} : gmap string value) !! x = Some v
            ∧ Prompt.vm_type meta = Some tag
            ∧ Prompt.type_map !! tag = Some ty ∧ isinstance v ty = false
            ∧ KeyError
                "[promptvault] Required variable 'b' missing for prompt 'demo' v1.0."
              = TypeError (Prompt.type_msg two_checks x tag (type_name v)))).
Proof.
  apply (validate_raise_sound two_checks {[ "a" := VInt 1 ]}).
  reflexivity.
Defined.

(** ** When rendering succeeds and what it raises *)







(** ** Templates without placeholders *)

Lemma scan_no_delim i s :
  (¬ ∃ a b, s = a +:+ String "$"%char b) →
  Template.scan Template.Outside i s = Template.texts s.
Proof.
  revert i. induction s as [|c r IH]; intros i Hno; [reflexivity|].
  simpl. unfold Template.is_delim.
  destruct (decide (c = "$"%char)) as [->|Hc].
  - destruct Hno. exists "", r. reflexivity.
  - rewrite (bool_decide_eq_false_2 _ Hc). f_equal. apply IH.
    intros (a & b & ->). apply Hno. exists (String c a), b. reflexivity.
Qed.

Lemma sub_texts `{Builtins} template (mapping : gmap string value) s :
  Template.sub template mapping (Template.texts s) = Ok s.
Proof. induction s as [|c r IH]; simpl; [|rewrite IH]; reflexivity. Qed.

(** X5: for a template in which no [$] occurs, a call that supplies no key
    [self] returns the template unchanged when validation passes and raises
    the exception of validation otherwise; a call that supplies the key
    [self] raises a [TypeError]. *)
Theorem render_plain_template `{Builtins} (p : Prompt.t)
    (kwargs : gmap string value) :
  (¬ ∃ a b, Prompt.template p = a +:+ String "$"%char b) →
  (kwargs !! "self" = None →
   Prompt.render p kwargs
   = (Prompt._validate p kwargs ;; Ok (Prompt.template p)))
  ∧ (is_Some (kwargs !! "self") →
     ∃ msg, Prompt.render p kwargs = Raise (TypeError msg)).
Proof.
  intros Hno. split.
  - intros Hself. rewrite render_bound by exact Hself.
    unfold Prompt.render_body, Template.substitute, Template.pieces.
    rewrite (scan_no_delim 0 _ Hno), sub_texts. reflexivity.
  - intros Hself. rewrite render_unbound by exact Hself. eauto.
Qed.

(** ** Variables that play no part *)

Lemma validate_items_insert p kwargs items k v :
  k ∉ items.*1 →
  Prompt.validate_items p (<[k := v]> kwargs) items
  = Prompt.validate_items p kwargs items.
Proof.
  induction items as [|[x meta] items IH]; simpl; [reflexivity|].
  intros Hk. apply not_elem_of_cons in Hk as [Hne Hk].
  unfold Prompt.validate_var, Prompt.check_required, Prompt.check_type. simpl.
  rewrite lookup_insert_ne by congruence. rewrite IH by exact Hk. reflexivity.
Qed.

Lemma merge_items_insert kwargs items merged k v :
  k ∉ items.*1 →
  Prompt.merge_items (<[k := v]> kwargs) items merged
  = Prompt.merge_items kwargs items merged.
Proof.
  revert merged. induction items as [|[x meta] items IH]; simpl;
    [reflexivity|].
  intros merged Hk. apply not_elem_of_cons in Hk as [Hne Hk].
  rewrite lookup_insert_ne by congruence. apply IH. exact Hk.
Qed.

Lemma merge_items_undeclared kwargs items (merged : gmap string value) k :
  k ∉ items.*1 →
  Prompt.merge_items kwargs items merged !! k = merged !! k.
Proof.
  revert merged. induction items as [|[x meta] items IH]; simpl;
    [reflexivity|].
  intros merged Hk. apply not_elem_of_cons in Hk as [Hne Hk].
  rewrite IH by exact Hk.
  destruct (kwargs !! x); [apply lookup_insert_ne; congruence|].
  destruct (Prompt.vm_default meta);
    [apply lookup_insert_ne; congruence|reflexivity].
Qed.

Lemma apply_defaults_insert p kwargs k v :
  k ∉ Prompt.keys p →
  Prompt._apply_defaults p (<[k := v]> kwargs)
  = <[k := v]> (Prompt._apply_defaults p kwargs).
Proof.
  intros Hk. unfold Prompt._apply_defaults, Prompt.update.
  rewrite merge_items_insert by exact Hk.
  pose proof (merge_items_undeclared kwargs (Prompt.variables p) ∅ k Hk)
    as Hm. rewrite lookup_empty in Hm.
  set (merged := Prompt.merge_items kwargs (Prompt.variables p) ∅) in *.
  apply map_eq. intros j.
  rewrite lookup_union, map_lookup_filter. cbn [fst].
  destruct (decide (k = j)) as [<-|Hne].
  - rewrite !lookup_insert_eq, Hm. cbn [mbind option_bind].
    rewrite option_guard_True by reflexivity. reflexivity.
  - rewrite !lookup_insert_ne by exact Hne.
    rewrite lookup_union, map_lookup_filter. reflexivity.
Qed.

Lemma sub_insert `{Builtins} template (mapping : gmap string value) ps k v :
  k ∉ omap Template.piece_name ps →
  Template.sub template (<[k := v]> mapping) ps
  = Template.sub template mapping ps.
Proof.
  induction ps as [|[c|g] ps IH]; simpl; [reflexivity| |].
  - intros Hk. rewrite IH by exact Hk. reflexivity.
  - destruct g as [|id|id|start]; simpl; intros Hk.
    + rewrite IH by exact Hk. reflexivity.
    + apply not_elem_of_cons in Hk as [Hne Hk].
      rewrite lookup_insert_ne by exact Hne. rewrite IH by exact Hk.
      reflexivity.
    + apply not_elem_of_cons in Hk as [Hne Hk].
      rewrite lookup_insert_ne by exact Hne. rewrite IH by exact Hk.
      reflexivity.
    + reflexivity.
Qed.

(** X6: supplying, or changing, a variable other than [self] that is
    neither declared nor referenced by a placeholder does not change what
    [render] returns or raises. *)
Theorem render_ignores_unused `{Builtins} (p : Prompt.t)
    (kwargs : gmap string value) k v :
  k ≠ "self" →
  k ∉ Prompt.keys p →
  k ∉ Template.placeholders (Prompt.template p) →
  Prompt.render p (<[k := v]> kwargs) = Prompt.render p kwargs.
Proof.
  intros Hself Hkey Hph.
  unfold Prompt.render, Prompt.bind_call, Prompt.render_body,
    Prompt._validate.
  rewrite lookup_insert_ne by exact Hself.
  rewrite validate_items_insert by exact Hkey.
  rewrite apply_defaults_insert by exact Hkey.
  unfold Template.substitute. rewrite sub_insert by exact Hph. reflexivity.
Qed.

(** ** Merging twice *)

(** X7: with nothing supplied the working mapping is the mapping of the
    declared defaults, and feeding a working mapping back in as the supplied
    values reproduces it. *)
Theorem apply_defaults_fixpoint (p : Prompt.t) (kwargs : gmap string value) :
  Prompt.unique_keys p →
  Prompt._apply_defaults p ∅ = defaults_of p
  ∧ Prompt._apply_defaults p (Prompt._apply_defaults p kwargs)
    = Prompt._apply_defaults p kwargs.
Proof.
  intros Hnd. split; apply map_eq; intros k.
  - rewrite apply_defaults_lookup, lookup_empty, defaults_of_lookup
      by exact Hnd. reflexivity.
  - rewrite (apply_defaults_lookup p (Prompt._apply_defaults p kwargs))
      by exact Hnd.
    destruct (Prompt._apply_defaults p kwargs !! k) eqn:Hk; [reflexivity|].
    rewrite apply_defaults_lookup in Hk by exact Hnd.
    destruct (kwargs !! k); [discriminate|]. exact Hk.
Qed.

(** ** Sorting *)

Section sorted_facts.
Context {A : Type} (lt : A → A → bool).

Lemma insert_sorted_perm x l : insert_sorted lt x l ≡ₚ x :: l.
Proof.
  induction l as [|y l IH]; simpl; [reflexivity|].
  destruct (lt y x); [|reflexivity].
  rewrite IH. apply Permutation_swap.
Qed.

Lemma sorted_perm l : sorted lt l ≡ₚ l.
Proof.
  induction l as [|x l IH]; simpl; [reflexivity|].
  rewrite insert_sorted_perm, IH. reflexivity.
Qed.

(** An element no smaller than the last one is not inserted behind it. *)
Lemma last_insert_sorted_keep x z l :
  last l = Some z → lt z x = false → last (insert_sorted lt x l) = Some z.
Proof.
  induction l as [|y l IH]; simpl; [discriminate|].
  intros Hlast Hzx. destruct (lt y x) eqn:Hyx.
  - destruct l as [|y' l].
    + injection Hlast as ->. congruence.
    + rewrite last_cons. rewrite IH; [reflexivity| |exact Hzx].
      rewrite last_cons in Hlast. destruct (last (y' :: l)); congruence.
  - rewrite last_cons. cbn [last] in *. rewrite Hlast. reflexivity.
Qed.

(** An element greater than all others goes last. *)
Lemma insert_sorted_greatest x l :
  (∀ y, y ∈ l → lt y x = true) → insert_sorted lt x l = l ++ [x].
Proof.
  induction l as [|y l IH]; simpl; [reflexivity|].
  intros Hall. rewrite (Hall y) by left. f_equal.
  apply IH. intros y' Hin. apply Hall. right. exact Hin.
Qed.

Hypothesis lt_asym : ∀ x y, lt x y = true → lt y x = false.
Hypothesis ge_trans :
  ∀ x y z, lt y x = false → lt z y = false → lt z x = false.

Lemma insert_sorted_sorted x l :
  StronglySorted (λ a b, lt b a = false) l →
  StronglySorted (λ a b, lt b a = false) (insert_sorted lt x l).
Proof.
  induction l as [|y l IH]; simpl; intros Hs.
  - repeat constructor.
  - apply StronglySorted_inv in Hs as [Hs Hy].
    destruct (lt y x) eqn:Hyx.
    + constructor; [apply IH, Hs|].
      apply Forall_forall. intros z Hz.
      rewrite insert_sorted_perm in Hz.
      apply elem_of_cons in Hz as [->|Hz]; [apply lt_asym, Hyx|].
      rewrite Forall_forall in Hy. apply Hy, Hz.
    + constructor; [constructor; assumption|].
      constructor; [exact Hyx|].
      eapply Forall_impl; [exact Hy|]. simpl. intros z Hz.
      apply (ge_trans x y z); assumption.
Qed.

Lemma sorted_sorted l : StronglySorted (λ a b, lt b a = false) (sorted lt l).
Proof.
  induction l as [|x l IH]; simpl; [constructor|].
  apply insert_sorted_sorted, IH.
Qed.

(** The last element of a sorted list is below none of the others. *)
Lemma last_sorted_greatest l z y :
  last (sorted lt l) = Some z → y ∈ l → lt z y = false.
Proof.
  intros Hlast Hy. rewrite <- sorted_perm in Hy.
  pose proof (sorted_sorted l) as Hs. revert Hs Hlast Hy.
  generalize (sorted lt l). clear l. intros l.
  induction l as [|x l IH]; [discriminate|].
  intros Hs Hlast Hy. apply StronglySorted_inv in Hs as [Hs Hx].
  destruct l as [|x' l].
  - injection Hlast as ->. apply list_elem_of_singleton in Hy as ->.
    destruct (lt z z) eqn:Hzz; [|reflexivity].
    rewrite (lt_asym _ _ Hzz) in Hzz. discriminate.
  - rewrite last_cons in Hlast.
    destruct (last (x' :: l)) as [w|] eqn:Hw;
      [|apply last_None in Hw; discriminate].
    injection Hlast as ->.
    apply elem_of_cons in Hy as [->|Hy]; [|apply IH; auto].
    rewrite Forall_forall in Hx. apply Hx.
    apply last_Some_elem_of. exact Hw.
Qed.

End sorted_facts.

Lemma insert_sorted_fst {A B} (lt : A → A → bool) (x : A * B) s :
  (insert_sorted (λ a b, lt a.1 b.1) x s).*1 = insert_sorted lt x.1 s.*1.
Proof.
  induction s as [|y s IH]; simpl; [reflexivity|].
  destruct (lt y.1 x.1); simpl; [f_equal; exact IH|reflexivity].
Qed.

Lemma sorted_cons {A} (lt : A → A → bool) x l :
  sorted lt (x :: l) = insert_sorted lt x (sorted lt l).
Proof. reflexivity. Qed.

Lemma sorted_fst {A B} (lt : A → A → bool) (l : list (A * B)) :
  (sorted (λ a b, lt a.1 b.1) l).*1 = sorted lt l.*1.
Proof.
  induction l as [|x l IH]; [reflexivity|].
  rewrite fmap_cons, !sorted_cons, insert_sorted_fst, IH. reflexivity.
Qed.

(** ** The order on version strings and names *)

Lemma str_lt_asym x y : str_lt x y = true → str_lt y x = false.
Proof.
  unfold str_lt, String.ltb. rewrite (String.compare_antisym y x).
  destruct (String.compare x y); simpl; congruence.
Qed.

Lemma str_lt_connected x y : str_lt x y = false → str_lt y x = false → x = y.
Proof.
  unfold str_lt, String.ltb. rewrite (String.compare_antisym y x).
  destruct (String.compare x y) eqn:Hc; simpl; try discriminate.
  intros _ _. apply String.compare_eq_iff. exact Hc.
Qed.

Lemma str_lt_le x y : str_lt y x = false ↔ String.le x y.
Proof.
  unfold str_lt, String.le, String.ltb, String.leb.
  rewrite (String.compare_antisym y x).
  destruct (String.compare x y); simpl; split; try done.
Qed.

Lemma str_ge_trans x y z :
  str_lt y x = false → str_lt z y = false → str_lt z x = false.
Proof. rewrite !str_lt_le. intros Hxy Hyz. etrans; eassumption. Qed.

(** ** Listing names and versions *)

Lemma strictly_sorted (l : list string) :
  NoDup l →
  StronglySorted (λ a b, str_lt b a = false) l →
  StronglySorted (λ a b, str_lt a b = true) l.
Proof.
  induction l as [|x l IH]; intros Hnd Hs; [constructor|].
  apply NoDup_cons in Hnd as [Hx Hnd].
  apply StronglySorted_inv in Hs as [Hs Hall].
  constructor; [apply IH; assumption|].
  rewrite Forall_forall in Hall. apply Forall_forall. intros y Hy.
  destruct (str_lt x y) eqn:Hxy; [reflexivity|].
  destruct Hx. rewrite (str_lt_connected x y Hxy (Hall y Hy)). exact Hy.
Qed.

Lemma elem_of_list_names st x :
  x ∈ PromptVault.list st ↔
  ∃ f, f ∈ PromptVault.files st
       ∧ default (PromptVault.stem f)
           (PromptVault.y_name (PromptVault.data f)) = x.
Proof.
  unfold PromptVault.list.
  rewrite elem_of_sorted, elem_of_elements, elem_of_list_to_set.
  rewrite list_elem_of_fmap. split.
  - intros (f & -> & Hf). eauto.
  - intros (f & Hf & <-). eauto.
Qed.

(** X8: [list] returns, in strictly ascending text order and hence without
    repetition, exactly the names that some file contributes: its [name]
    key, or its stem when the key is absent. *)
Theorem list_spec (st : PromptVault.store) :
  (∀ x, x ∈ PromptVault.list st ↔
        ∃ f, f ∈ PromptVault.files st
             ∧ default (PromptVault.stem f)
                 (PromptVault.y_name (PromptVault.data f)) = x)
  ∧ StronglySorted (λ a b, str_lt a b = true) (PromptVault.list st).
Proof.
  split; [apply elem_of_list_names|].
  unfold PromptVault.list.
  - apply strictly_sorted.
    + rewrite sorted_perm. apply NoDup_elements.
    + apply sorted_sorted; [apply str_lt_asym|apply str_ge_trans].
Qed.

Lemma get_versions_ok ps vs :
  PromptVault.get_versions ps = Ok vs ↔
  (λ f, PromptVault.y_version (PromptVault.data f)) <$> ps = Some <$> vs.
Proof.
  revert vs. induction ps as [|p ps IH]; intros vs; simpl.
  - split; [intros [= <-]; reflexivity|].
    destruct vs; [reflexivity|discriminate].
  - unfold PromptVault.get_version.
    destruct (PromptVault.y_version (PromptVault.data p)) as [v|]; simpl.
    + destruct (PromptVault.get_versions ps) as [vs'|e]; simpl.
      * split.
        -- intros [= <-]. simpl. f_equal. apply IH. reflexivity.
        -- destruct vs as [|v' vs]; [discriminate|]. simpl.
           intros [= -> Hrest]. apply IH in Hrest. congruence.
      * split; [discriminate|].
        destruct vs as [|v' vs]; [discriminate|]. simpl.
        intros [= -> Hrest]. apply IH in Hrest. discriminate.
    + split; [discriminate|]. destruct vs; discriminate.
Qed.

Lemma get_versions_raise ps :
  (∃ f, f ∈ ps ∧ PromptVault.y_version (PromptVault.data f) = None) ↔
  PromptVault.get_versions ps = Raise (KeyError "version").
Proof.
  induction ps as [|p ps IH]; simpl.
  - split; [|discriminate]. intros (f & Hin & _).
    apply elem_of_nil in Hin. contradiction.
  - unfold PromptVault.get_version.
    destruct (PromptVault.y_version (PromptVault.data p)) as [v|] eqn:Hp;
      simpl.
    + destruct (PromptVault.get_versions ps) as [vs|e]; simpl.
      * split; [|discriminate]. intros (f & Hin & Hf).
        apply elem_of_cons in Hin as [->|Hin]; [congruence|].
        assert (Ok vs = Raise (KeyError "version")) by (apply IH; eauto).
        discriminate.
      * split.
        -- intros (f & Hin & Hf).
           apply elem_of_cons in Hin as [->|Hin]; [congruence|].
           apply IH. eauto.
        -- intros Heq. destruct (proj2 IH Heq) as (f & Hin & Hf).
           exists f. split; [right; exact Hin|exact Hf].
    + split; [reflexivity|]. intros _. exists p. split; [left|exact Hp].
Qed.

Lemma get_versions_exn ps e :
  PromptVault.get_versions ps = Raise e → e = KeyError "version".
Proof.
  induction ps as [|p ps IH]; simpl; [discriminate|].
  unfold PromptVault.get_version.
  destruct (PromptVault.y_version (PromptVault.data p)); simpl;
    [|congruence].
  destruct (PromptVault.get_versions ps); simpl; [discriminate|].
  intros [= <-]. apply IH. reflexivity.
Qed.

(** X9: when [versions] returns, its result is a rearrangement of the
    [version] keys of the files named [name], in ascending text order. *)
Theorem versions_spec (st : PromptVault.store) (name : string) vs :
  PromptVault.versions st name = Ok vs →
  Some <$> vs
    ≡ₚ (λ f, PromptVault.y_version (PromptVault.data f))
         <$> PromptVault._find_files st name
  ∧ StronglySorted (λ a b, str_lt b a = false) vs.
Proof.
  unfold PromptVault.versions.
  destruct (PromptVault.get_versions _) as [vs0|e] eqn:Hvs; simpl;
    [|discriminate].
  intros [= <-]. split.
  - apply get_versions_ok in Hvs. rewrite Hvs.
    apply fmap_Permutation, sorted_perm.
  - apply sorted_sorted; [apply str_lt_asym|apply str_ge_trans].
Qed.

(** X10: [versions] and [load] of the latest version raise
    [KeyError('version')] exactly when some file named [name] has no
    [version] key; the default version of [_parse] does not come into play. *)
Theorem version_key_required `{Builtins} (st : PromptVault.store)
    (name : string) :
  ((∃ f, f ∈ PromptVault._find_files st name
         ∧ PromptVault.y_version (PromptVault.data f) = None)
   ↔ PromptVault.versions st name = Raise (KeyError "version"))
  ∧ ((∃ f, f ∈ PromptVault._find_files st name
           ∧ PromptVault.y_version (PromptVault.data f) = None)
     → PromptVault.load st name None = Raise (KeyError "version")).
Proof.
  split.
  - rewrite get_versions_raise. unfold PromptVault.versions.
    destruct (PromptVault.get_versions _); simpl;
      split; congruence.
  - intros Hex. pose proof (proj1 (get_versions_raise _) Hex) as Hraise.
    unfold PromptVault.load, PromptVault.sorted_by_version.
    destruct (PromptVault._find_files st name) as [|c cs] eqn:Hfind.
    + destruct Hex as (f & Hin & _). apply elem_of_nil in Hin. contradiction.
    + rewrite Hraise. reflexivity.
Qed.

(** ** Loading *)

Lemma parse_ok d p :
  PromptVault._parse d = Ok p →
  PromptVault.y_name (PromptVault.data d) = Some (Prompt.name p)
  ∧ PromptVault.y_template (PromptVault.data d) = Some (Prompt.template p)
  ∧ Prompt.version p
    = default "1.0" (PromptVault.y_version (PromptVault.data d)).
Proof.
  unfold PromptVault._parse.
  destruct (PromptVault.y_name (PromptVault.data d)); [|discriminate].
  destruct (PromptVault.y_template (PromptVault.data d)); [|discriminate].
  intros [= <-]. auto.
Qed.

Lemma find_version_some version cs f :
  PromptVault.find_version version cs = Ok (Some f) →
  f ∈ cs ∧ PromptVault.y_version (PromptVault.data f) = Some version.
Proof.
  induction cs as [|c cs IH]; simpl; [discriminate|].
  unfold PromptVault.get_version.
  destruct (PromptVault.y_version (PromptVault.data c)) as [v|] eqn:Hc;
    simpl; [|discriminate].
  destruct (decide (v = version)) as [->|Hne].
  - intros [= <-]. split; [left|exact Hc].
  - intros Hrest. destruct (IH Hrest). split; [right|]; assumption.
Qed.

(** The first file with the requested version is the one found. *)
Lemma find_version_first version pre f post :
  Forall (λ g, ∃ w, PromptVault.y_version (PromptVault.data g) = Some w
                    ∧ w ≠ version) pre →
  PromptVault.y_version (PromptVault.data f) = Some version →
  PromptVault.find_version version (pre ++ f :: post) = Ok (Some f).
Proof.
  intros Hpre Hf. induction Hpre as [|g pre (w & Hg & Hne) _ IH]; simpl.
  - unfold PromptVault.get_version. rewrite Hf. simpl.
    destruct (decide (version = version)); congruence.
  - unfold PromptVault.get_version. rewrite Hg. simpl.
    destruct (decide (w = version)); [congruence|exact IH].
Qed.

Lemma find_version_none version cs vs :
  PromptVault.get_versions cs = Ok vs → version ∉ vs →
  PromptVault.find_version version cs = Ok None.
Proof.
  revert vs. induction cs as [|c cs IH]; intros vs; simpl; [reflexivity|].
  unfold PromptVault.get_version.
  destruct (PromptVault.y_version (PromptVault.data c)) as [v|]; simpl;
    [|discriminate].
  destruct (PromptVault.get_versions cs) as [vs'|]; simpl; [|discriminate].
  intros [= <-] Hnot. apply not_elem_of_cons in Hnot as [Hne Hnot].
  destruct (decide (v = version)); [congruence|]. apply (IH vs'); auto.
Qed.

(** The keys computed for the sort belong to their files. *)
Lemma zip_versions cs keys :
  PromptVault.get_versions cs = Ok keys →
  (∀ k g, (k, g) ∈ zip keys cs →
          PromptVault.y_version (PromptVault.data g) = Some k ∧ g ∈ cs)
  ∧ (∀ g, g ∈ cs → ∃ k, (k, g) ∈ zip keys cs).
Proof.
  revert keys. induction cs as [|c cs IH]; intros keys; simpl.
  - intros [= <-]. split.
    + intros k g Hin. apply elem_of_nil in Hin. contradiction.
    + intros g Hin. apply elem_of_nil in Hin. contradiction.
  - unfold PromptVault.get_version.
    destruct (PromptVault.y_version (PromptVault.data c)) as [v|] eqn:Hc;
      simpl; [|discriminate].
    destruct (PromptVault.get_versions cs) as [vs|]; simpl; [|discriminate].
    intros [= <-]. destruct (IH vs eq_refl) as [Hzip Hall]. split.
    + intros k g Hin. apply elem_of_cons in Hin as [[= -> ->]|Hin].
      * split; [exact Hc|left].
      * destruct (Hzip k g Hin). split; [|right]; assumption.
    + intros g Hin. apply elem_of_cons in Hin as [->|Hin].
      * exists v. left.
      * destruct (Hall g Hin) as [k Hk]. exists k. right. exact Hk.
Qed.

Lemma pair_lt_asym (x y : string * PromptVault.file) :
  str_lt x.1 y.1 = true → str_lt y.1 x.1 = false.
Proof. apply str_lt_asym. Qed.

Lemma pair_ge_trans (x y z : string * PromptVault.file) :
  str_lt y.1 x.1 = false → str_lt z.1 y.1 = false → str_lt z.1 x.1 = false.
Proof. apply str_ge_trans. Qed.

(** What the latest-version branch of [load] selects. *)
Lemma latest_selected cs ordered latest :
  PromptVault.sorted_by_version cs = Ok ordered →
  PromptVault.last_item ordered = Ok latest →
  ∃ k, PromptVault.y_version (PromptVault.data latest) = Some k
       ∧ latest ∈ cs
       ∧ (∀ g v, g ∈ cs →
            PromptVault.y_version (PromptVault.data g) = Some v →
            str_lt k v = false)
       ∧ ∃ keys, PromptVault.get_versions cs = Ok keys
                 ∧ last (sorted str_lt keys) = Some k.
Proof.
  unfold PromptVault.sorted_by_version, PromptVault.last_item.
  destruct (PromptVault.get_versions cs) as [keys|] eqn:Hkeys; simpl;
    [|discriminate].
  intros [= <-]. rewrite fmap_last.
  destruct (last (sorted _ (zip keys cs))) as [[k f]|] eqn:Hlast; simpl;
    [|discriminate].
  intros [= <-]. destruct (zip_versions cs keys Hkeys) as [Hzip Hall].
  assert ((k, f) ∈ zip keys cs) as Hin.
  { rewrite <- (sorted_perm (λ a b, str_lt a.1 b.1)).
    apply last_Some_elem_of. exact Hlast. }
  destruct (Hzip k f Hin) as [Hk Hf].
  exists k. repeat split; [exact Hk|exact Hf| |].
  - intros g v Hg Hv. destruct (Hall g Hg) as [k' Hk'].
    destruct (Hzip k' g Hk') as [Hv' _].
    assert (k' = v) as -> by congruence.
    apply (last_sorted_greatest (λ a b, str_lt a.1 b.1)
             pair_lt_asym pair_ge_trans _ (k, f) (v, g) Hlast Hk').
  - exists keys. split; [reflexivity|].
    assert ((zip keys cs).*1 = keys) as Hfst.
    { apply fst_zip. apply get_versions_ok in Hkeys.
      apply (f_equal length) in Hkeys. rewrite !length_fmap in Hkeys. lia. }
    rewrite <- Hfst, <- sorted_fst, fmap_last, Hlast. reflexivity.
Qed.

Lemma load_unfold `{Builtins} st name version c cs :
  PromptVault._find_files st name = c :: cs →
  PromptVault.load st name version
  = match version with
    | Some v =>
        m ← PromptVault.find_version v (c :: cs);
        match m with
        | None =>
            available ← PromptVault.get_versions (c :: cs);
            Raise (FileNotFoundError
              ("[promptvault] Prompt '" +:+ name +:+ "' version '"
                 +:+ v +:+ "' not found." +:+ nl
                 +:+ "Available versions: " +:+ repr_list available))
        | Some p => PromptVault._parse p
        end
    | None =>
        ordered ← PromptVault.sorted_by_version (c :: cs);
        latest ← PromptVault.last_item ordered;
        PromptVault._parse latest
    end.
Proof. unfold PromptVault.load. intros ->. reflexivity. Qed.

(** X11: a prompt returned by [load] is the parse of a file of the
    directory whose [name] key is the requested name; it carries that name,
    the [version] and [template] keys of that file, and the requested
    version when one was given. *)
Theorem load_sound `{Builtins} (st : PromptVault.store) (name : string)
    (version : option string) (p : Prompt.t) :
  PromptVault.load st name version = Ok p →
  Prompt.name p = name
  ∧ (∀ v, version = Some v → Prompt.version p = v)
  ∧ ∃ f, f ∈ PromptVault.files st
         ∧ PromptVault._parse f = Ok p
         ∧ PromptVault.y_name (PromptVault.data f) = Some name
         ∧ PromptVault.y_version (PromptVault.data f)
           = Some (Prompt.version p)
         ∧ PromptVault.y_template (PromptVault.data f)
           = Some (Prompt.template p).
Proof.
  intros Hload.
  assert (∃ f, f ∈ PromptVault._find_files st name
               ∧ PromptVault._parse f = Ok p
               ∧ (∃ k, PromptVault.y_version (PromptVault.data f) = Some k)
               ∧ ∀ v, version = Some v →
                      PromptVault.y_version (PromptVault.data f) = Some v)
    as (f & Hf & Hparse & [k Hk] & Hv).
  { destruct (PromptVault._find_files st name) as [|c cs] eqn:Hfind.
    { unfold PromptVault.load in Hload. rewrite Hfind in Hload.
      discriminate. }
    rewrite (load_unfold _ _ _ _ _ Hfind) in Hload.
    destruct version as [v|].
    - destruct (PromptVault.find_version v (c :: cs)) as [[f|]|] eqn:Hfv;
        cbn [mbind result_bind] in Hload; [| |discriminate].
      + apply find_version_some in Hfv as [Hin Hver].
        exists f. repeat split; [exact Hin|exact Hload|eauto|].
        intros v' [= <-]. exact Hver.
      + destruct (PromptVault.get_versions (c :: cs)); discriminate.
    - destruct (PromptVault.sorted_by_version (c :: cs)) as [ordered|]
        eqn:Hsort; simpl in Hload; [|discriminate].
      destruct (PromptVault.last_item ordered) as [latest|] eqn:Hlast;
        simpl in Hload; [|discriminate].
      destruct (latest_selected _ _ _ Hsort Hlast) as (k & Hk & Hin & _).
      exists latest. repeat split; [exact Hin|exact Hload|eauto|].
      discriminate. }
  apply find_files_name in Hf as [Hname Hin].
  destruct (parse_ok f p Hparse) as (Hn & Ht & Hver).
  rewrite Hk in Hver. simpl in Hver.
  repeat split.
  - congruence.
  - intros v Hsome. specialize (Hv v Hsome). congruence.
  - exists f. repeat split; try assumption. congruence.
Qed.

(** X12: the prompt that [load] returns when no version is requested has a
    version that no [version] key of the files named [name] exceeds in text
    order, and that version is the last entry of [versions]. *)
Theorem load_latest_greatest `{Builtins} (st : PromptVault.store)
    (name : string) (p : Prompt.t) :
  PromptVault.load st name None = Ok p →
  (∀ g v, g ∈ PromptVault._find_files st name →
          PromptVault.y_version (PromptVault.data g) = Some v →
          str_lt (Prompt.version p) v = false)
  ∧ ∃ vs, PromptVault.versions st name = Ok vs
          ∧ last vs = Some (Prompt.version p).
Proof.
  intros Hload.
  destruct (PromptVault._find_files st name) as [|c cs] eqn:Hfind.
  { unfold PromptVault.load in Hload. rewrite Hfind in Hload. discriminate. }
  rewrite (load_unfold _ _ _ _ _ Hfind) in Hload.
  destruct (PromptVault.sorted_by_version (c :: cs)) as [ordered|]
    eqn:Hsort; simpl in Hload; [|discriminate].
  destruct (PromptVault.last_item ordered) as [latest|] eqn:Hlast;
    simpl in Hload; [|discriminate].
  destruct (latest_selected _ _ _ Hsort Hlast)
    as (k & Hk & Hin & Hmax & keys & Hkeys & Hlastk).
  destruct (parse_ok latest p Hload) as (_ & _ & Hver).
  rewrite Hk in Hver. simpl in Hver. subst k. split; [exact Hmax|].
  exists (sorted str_lt keys). split; [|exact Hlastk].
  unfold PromptVault.versions. rewrite Hfind, Hkeys. reflexivity.
Qed.

(** X13: when several files named [name] carry the requested version,
    [load] parses the first of them in directory order. *)
Theorem load_first_match `{Builtins} (st : PromptVault.store)
    (name version : string) pre f post :
  PromptVault._find_files st name = pre ++ f :: post →
  Forall (λ g, ∃ w, PromptVault.y_version (PromptVault.data g) = Some w
                    ∧ w ≠ version) pre →
  PromptVault.y_version (PromptVault.data f) = Some version →
  PromptVault.load st name (Some version) = PromptVault._parse f.
Proof.
  intros Hfind Hpre Hf. unfold PromptVault.load. rewrite Hfind.
  rewrite (find_version_first version pre f post Hpre Hf).
  destruct (pre ++ f :: post) eqn:Happ; [|reflexivity].
  destruct pre; discriminate.
Qed.

Lemma sorted_tie_last {A} (lt : A → A → bool) pre x post :
  (∀ a, a ∈ pre → lt x a = false) →
  (∀ b, b ∈ post → lt b x = true) →
  last (sorted lt (pre ++ x :: post)) = Some x.
Proof.
  intros Hpre Hpost. induction pre as [|a pre IH].
  - cbn [app]. rewrite sorted_cons, insert_sorted_greatest;
      [apply last_snoc|].
    intros y Hy. rewrite sorted_perm in Hy. apply Hpost, Hy.
  - rewrite <- app_comm_cons, sorted_cons. apply last_insert_sorted_keep.
    + apply IH. intros a' Ha'. apply Hpre. right. exact Ha'.
    + apply Hpre. left.
Qed.

Lemma get_versions_forall (P : string → Prop) cs :
  Forall (λ g, ∃ w, PromptVault.y_version (PromptVault.data g) = Some w
                    ∧ P w) cs →
  ∃ keys, PromptVault.get_versions cs = Ok keys
          ∧ length keys = length cs
          ∧ ∀ k g, (k, g) ∈ zip keys cs → P k.
Proof.
  induction 1 as [|g cs (w & Hw & HP) _ (keys & Hkeys & Hlen & Hall)].
  - exists []. repeat split. intros k g Hin.
    apply elem_of_nil in Hin. contradiction.
  - exists (w :: keys). simpl. unfold PromptVault.get_version.
    rewrite Hw, Hkeys. simpl. repeat split; [congruence|].
    intros k g' Hin. apply elem_of_cons in Hin as [[= -> ->]|Hin];
      [exact HP|apply (Hall k g' Hin)].
Qed.

Lemma get_versions_app pre post kpre kpost :
  PromptVault.get_versions pre = Ok kpre →
  PromptVault.get_versions post = Ok kpost →
  PromptVault.get_versions (pre ++ post) = Ok (kpre ++ kpost).
Proof.
  revert kpre. induction pre as [|g pre IH]; intros kpre; simpl.
  - intros [= <-] Hpost. exact Hpost.
  - destruct (PromptVault.get_version g); simpl; [|discriminate].
    destruct (PromptVault.get_versions pre) as [ks|]; simpl; [|discriminate].
    intros [= <-] Hpost. rewrite (IH ks eq_refl Hpost). reflexivity.
Qed.

(** X14: when no version is requested and several files named [name] share
    the greatest version, [load] parses the last of them in directory
    order. *)
Theorem load_latest_tie `{Builtins} (st : PromptVault.store)
    (name version : string) pre f post :
  PromptVault._find_files st name = pre ++ f :: post →
  PromptVault.y_version (PromptVault.data f) = Some version →
  Forall (λ g, ∃ w, PromptVault.y_version (PromptVault.data g) = Some w
                    ∧ str_lt version w = false) pre →
  Forall (λ g, ∃ w, PromptVault.y_version (PromptVault.data g) = Some w
                    ∧ str_lt w version = true) post →
  PromptVault.load st name None = PromptVault._parse f.
Proof.
  intros Hfind Hf Hpre Hpost.
  destruct (get_versions_forall _ _ Hpre) as (kpre & Hkpre & Hlpre & Hapre).
  destruct (get_versions_forall _ _ Hpost)
    as (kpost & Hkpost & Hlpost & Hapost).
  assert (PromptVault.get_versions (f :: post) = Ok (version :: kpost))
    as Hkf.
  { simpl. unfold PromptVault.get_version. rewrite Hf, Hkpost. reflexivity. }
  pose proof (get_versions_app _ _ _ _ Hkpre Hkf) as Hkeys.
  assert (∃ c cs, pre ++ f :: post = c :: cs) as (c & cs & Hcs)
    by (destruct pre; simpl; eauto).
  rewrite (load_unfold st name None c cs) by congruence.
  rewrite <- Hcs.
  unfold PromptVault.sorted_by_version, PromptVault.last_item.
  rewrite Hkeys. cbn [mbind result_bind].
  rewrite fmap_last, zip_with_app by exact Hlpre.
  change (zip (version :: kpost) (f :: post))
    with ((version, f) :: zip kpost post).
  rewrite (sorted_tie_last (λ a b, str_lt a.1 b.1)
             (zip kpre pre) (version, f) (zip kpost post)).
  - reflexivity.
  - intros [k g] Hin. apply (Hapre k g Hin).
  - intros [k g] Hin. apply (Hapost k g Hin).
Qed.

(** X15: a name that [list] does not return has no prompt: [load] raises
    the no-such-prompt [FileNotFoundError] for every version and [versions]
    is empty; hence every name [load] succeeds on is listed. *)
Theorem load_unlisted `{Builtins} (st : PromptVault.store) (name : string) :
  name ∉ PromptVault.list st →
  (∀ version,
     PromptVault.load st name version
     = Raise (FileNotFoundError
         ("[promptvault] No prompt named '" +:+ name +:+ "' found in "
            +:+ PromptVault.resolved st +:+ "." +:+ nl
            +:+ "Available prompts: " +:+ repr_list (PromptVault.list st))))
  ∧ PromptVault.versions st name = Ok [].
Proof.
  intros Hnot.
  assert (PromptVault._find_files st name = []) as Hfind.
  { apply find_files_none. intros g Hg Hname. apply Hnot.
    apply elem_of_list_names. exists g. rewrite Hname. auto. }
  split.
  - intros version. unfold PromptVault.load. rewrite Hfind. reflexivity.
  - unfold PromptVault.versions. rewrite Hfind. reflexivity.
Qed.

(** X16: when files named [name] exist, all with a [version] key, and none
    has the requested version, [load] raises the [FileNotFoundError] that
    lists the available versions in directory order. *)
Theorem load_version_not_found `{Builtins} (st : PromptVault.store)
    (name version : string) available :
  PromptVault._find_files st name ≠ [] →
  PromptVault.get_versions (PromptVault._find_files st name) = Ok available →
  version ∉ available →
  PromptVault.load st name (Some version)
  = Raise (FileNotFoundError
      ("[promptvault] Prompt '" +:+ name +:+ "' version '" +:+ version
         +:+ "' not found." +:+ nl +:+ "Available versions: "
         +:+ repr_list available)).
Proof.
  intros Hne Hkeys Hnot. unfold PromptVault.load.
  rewrite (find_version_none _ _ _ Hkeys Hnot), Hkeys.
  destruct (PromptVault._find_files st name); [congruence|reflexivity].
Qed.

Lemma find_version_found version cs keys :
  PromptVault.get_versions cs = Ok keys → version ∈ keys →
  ∃ f, PromptVault.find_version version cs = Ok (Some f).
Proof.
  revert keys. induction cs as [|c cs IH]; intros keys; simpl.
  - intros [= <-] Hin. apply elem_of_nil in Hin. contradiction.
  - unfold PromptVault.get_version.
    destruct (PromptVault.y_version (PromptVault.data c)) as [v|]; simpl;
      [|discriminate].
    destruct (PromptVault.get_versions cs) as [vs|]; simpl; [|discriminate].
    intros [= <-] Hin. destruct (decide (v = version)); [eauto|].
    apply elem_of_cons in Hin as [->|Hin]; [congruence|].
    apply (IH vs eq_refl Hin).
Qed.

(** X17: every version that [versions] returns can be requested: [load]
    finds a file named [name] with that [version] key and returns what
    parsing it gives, never the version-not-found error. *)
Theorem listed_version_loads `{Builtins} (st : PromptVault.store)
    (name version : string) vs :
  PromptVault.versions st name = Ok vs →
  version ∈ vs →
  ∃ f, f ∈ PromptVault._find_files st name
       ∧ PromptVault.y_version (PromptVault.data f) = Some version
       ∧ PromptVault.load st name (Some version) = PromptVault._parse f.
Proof.
  unfold PromptVault.versions.
  destruct (PromptVault.get_versions _) as [keys|] eqn:Hkeys; simpl;
    [|discriminate].
  intros [= <-] Hin. rewrite sorted_perm in Hin.
  destruct (find_version_found _ _ _ Hkeys Hin) as [f Hfound].
  destruct (find_version_some _ _ _ Hfound) as [Hf Hver].
  exists f. repeat split; [exact Hf|exact Hver|].
  unfold PromptVault.load. rewrite Hfound.
  destruct (PromptVault._find_files st name); [|reflexivity].
  apply elem_of_nil in Hf. contradiction.
Qed.

(** ** Diffing *)

(** X18: when [diff] returns, both versions were loaded and the text is not
    empty; when it raises, the exception is that of loading the first
    version, or of loading the second once the first has loaded. *)
Theorem diff_outcome `{Builtins} (st : PromptVault.store)
    (name version_a version_b : string) :
  (∀ text, PromptVault.diff st name version_a version_b = Ok text →
     text ≠ ""
     ∧ ∃ a b, PromptVault.load st name (Some version_a) = Ok a
              ∧ PromptVault.load st name (Some version_b) = Ok b)
  ∧ (∀ e, PromptVault.diff st name version_a version_b = Raise e →
       PromptVault.load st name (Some version_a) = Raise e
       ∨ ((∃ a, PromptVault.load st name (Some version_a) = Ok a)
          ∧ PromptVault.load st name (Some version_b) = Raise e)).
Proof.
  unfold PromptVault.diff.
  destruct (PromptVault.load st name (Some version_a)) as [a|ea]; simpl.
  - destruct (PromptVault.load st name (Some version_b)) as [b|eb]; simpl.
    + split; [|discriminate]. intros text [= <-]. split; [|eauto].
      destruct (foldr String.append "" _) as [|c r]; discriminate.
    + split; [discriminate|]. intros e [= <-]. right. eauto.
  - split; [discriminate|]. intros e [= <-]. left. reflexivity.
Qed.

(** ** Logging *)

Lemma append_empty_r (s : string) : s +:+ "" = s.
Proof.
  induction s as [|c s IH]; [reflexivity|].
  change (String c (s +:+ "") = String c s). f_equal. exact IH.
Qed.

Lemma log_with_sink `{Builtins} self name kw w log_file :
  PromptVault._log_file self = Some log_file →
  PromptVault.log self name kw w
  = let old := default "" (PromptVault.w_files w !! log_file) in
    let dirs := PromptVault.w_dirs w
                ∪ list_to_set (PromptVault.parents log_file) in
    match json_dumps (log_record name kw w) with
    | Raise e =>
        (Raise e,
         {| PromptVault.w_dirs := dirs;
            PromptVault.w_files := <[log_file := old]> (PromptVault.w_files w);
            PromptVault.w_utcnow := PromptVault.w_utcnow w |})
    | Ok line =>
        (Ok tt,
         {| PromptVault.w_dirs := dirs;
            PromptVault.w_files :=
              <[log_file := old +:+ line +:+ nl]> (PromptVault.w_files w);
            PromptVault.w_utcnow := PromptVault.w_utcnow w |})
    end.
Proof.
  intros Hsink. unfold PromptVault.log, log_record. rewrite Hsink.
  reflexivity.
Qed.

(** X19: [log] only ever appends.  Whatever it returns, every directory is
    still there, every file other than the log file is untouched, and the
    previous content of every file is a prefix of its new content.  When it
    returns normally on a vault with a log file, the log file holds its
    previous content followed by the serialised record and a line feed. *)
Theorem log_append_only `{Builtins} (self : PromptVault.t) (name : string)
    (kw : PromptVault.log_kwargs) (w w' : PromptVault.world) r :
  PromptVault.log self name kw w = (r, w') →
  PromptVault.w_dirs w ⊆ PromptVault.w_dirs w'
  ∧ (∀ path, PromptVault._log_file self ≠ Some path →
             PromptVault.w_files w' !! path = PromptVault.w_files w !! path)
  ∧ (∀ path content,
       PromptVault.w_files w !! path = Some content →
       ∃ suffix, PromptVault.w_files w' !! path = Some (content +:+ suffix))
  ∧ (∀ log_file, PromptVault._log_file self = Some log_file → r = Ok tt →
       ∃ line, json_dumps (log_record name kw w) = Ok line
               ∧ PromptVault.w_files w' !! log_file
                 = Some (default "" (PromptVault.w_files w !! log_file)
                           +:+ line +:+ nl)).
Proof.
  destruct (PromptVault._log_file self) as [log_file|] eqn:Hsink.
  - rewrite (log_with_sink _ _ _ _ _ Hsink). cbn zeta.
    destruct (json_dumps (log_record name kw w)) as [line|e];
      intros [= <- <-]; cbn [PromptVault.w_dirs PromptVault.w_files].
    + repeat split.
      * apply union_subseteq_l.
      * intros path Hne. apply lookup_insert_ne. congruence.
      * intros path content Hpath.
        destruct (decide (log_file = path)) as [->|Hne].
        -- rewrite lookup_insert_eq, Hpath. simpl. eauto.
        -- rewrite lookup_insert_ne by exact Hne.
           exists "". rewrite append_empty_r. exact Hpath.
      * intros f [= <-] _. exists line. split; [reflexivity|].
        apply lookup_insert_eq.
    + repeat split.
      * apply union_subseteq_l.
      * intros path Hne. apply lookup_insert_ne. congruence.
      * intros path content Hpath. exists "". rewrite append_empty_r.
        destruct (decide (log_file = path)) as [->|Hne].
        -- rewrite lookup_insert_eq, Hpath. reflexivity.
        -- rewrite lookup_insert_ne by exact Hne. exact Hpath.
      * intros f _ [=].
  - unfold PromptVault.log. rewrite Hsink. intros [= <- <-].
    split; [reflexivity|]. split; [reflexivity|]. split.
    + intros path content Hpath. exists "". rewrite append_empty_r.
      exact Hpath.
    + discriminate.
Qed.

Lemma dict_set_keys k v d :
  (PromptVault.dict_set k v d).*1
  = if decide (k ∈ d.*1) then d.*1 else d.*1 ++ [k].
Proof.
  induction d as [|[k' v'] d IH].
  - cbn. rewrite decide_False by apply not_elem_of_nil. reflexivity.
  - cbn [PromptVault.dict_set]. destruct (decide (k' = k)) as [->|Hne].
    + rewrite !fmap_cons. cbn [fst]. rewrite decide_True by left.
      reflexivity.
    + rewrite !fmap_cons, IH. cbn [fst].
      destruct (decide (k ∈ d.*1)) as [Hin|Hnot].
      * rewrite decide_True by (right; exact Hin). reflexivity.
      * rewrite decide_False; [reflexivity|].
        intros Hin. apply elem_of_cons in Hin as [->|Hin];
          [congruence|contradiction].
Qed.

Lemma dict_set_elem k v d : (k, v) ∈ PromptVault.dict_set k v d.
Proof.
  induction d as [|[k' v'] d IH]; simpl; [left|].
  destruct (decide (k' = k)); [left|right; exact IH].
Qed.

Lemma dict_set_other k v k' v' d :
  k' ≠ k → (k', v') ∈ d → (k', v') ∈ PromptVault.dict_set k v d.
Proof.
  intros Hne. induction d as [|[k0 v0] d IH]; simpl; intros Hin.
  - apply elem_of_nil in Hin. contradiction.
  - apply elem_of_cons in Hin as [[= <- <-]|Hin].
    + destruct (decide (k' = k)); [congruence|left].
    + destruct (decide (k0 = k)); right; [exact Hin|apply IH, Hin].
Qed.

Lemma fold_dict_set_keeps ex d k v :
  k ∉ ex.*1 → (k, v) ∈ d →
  (k, v) ∈ foldl (λ d kv, PromptVault.dict_set kv.1 kv.2 d) d ex.
Proof.
  revert d. induction ex as [|[k0 v0] ex IH]; simpl; intros d Hk Hin;
    [exact Hin|].
  apply not_elem_of_cons in Hk as [Hne Hk].
  apply IH; [exact Hk|]. apply dict_set_other; assumption.
Qed.

Lemma fold_dict_set_overrides ex d k v :
  NoDup ex.*1 → (k, v) ∈ ex →
  (k, v) ∈ foldl (λ d kv, PromptVault.dict_set kv.1 kv.2 d) d ex.
Proof.
  revert d. induction ex as [|[k0 v0] ex IH]; simpl; intros d Hnd Hin.
  - apply elem_of_nil in Hin. contradiction.
  - apply NoDup_cons in Hnd as [Hk0 Hnd].
    apply elem_of_cons in Hin as [[= -> ->]|Hin].
    + apply fold_dict_set_keeps; [exact Hk0|apply dict_set_elem].
    + apply IH; assumption.
Qed.

Lemma filter_not_in_snoc (seen : list string) k (ks : list string) :
  k ∉ ks →
  filter (λ x, x ∉ seen ++ [k]) ks = filter (λ x, x ∉ seen) ks.
Proof.
  induction ks as [|x ks IH]; intros Hk; [reflexivity|].
  apply not_elem_of_cons in Hk as [Hne Hk].
  rewrite !filter_cons, IH by exact Hk.
  destruct (decide (x ∉ seen ++ [k])) as [Hx|Hx];
    destruct (decide (x ∉ seen)) as [Hx'|Hx']; try reflexivity.
  - destruct Hx'. intros Hin. apply Hx. apply elem_of_app. left. exact Hin.
  - destruct Hx. intros Hin. apply elem_of_app in Hin as [Hin|Hin];
      [contradiction|]. apply list_elem_of_singleton in Hin. congruence.
Qed.

Lemma fold_dict_set_keys ex d :
  NoDup ex.*1 →
  (foldl (λ d kv, PromptVault.dict_set kv.1 kv.2 d) d ex).*1
  = d.*1 ++ filter (λ k, k ∉ d.*1) ex.*1.
Proof.
  revert d. induction ex as [|[k v] ex IH]; intros d Hnd.
  - simpl. rewrite app_nil_r. reflexivity.
  - apply NoDup_cons in Hnd as [Hk Hnd].
    cbn [foldl fmap list_fmap fst snd]. rewrite IH by exact Hnd.
    rewrite dict_set_keys, filter_cons.
    destruct (decide (k ∈ d.*1)) as [Hin|Hnot].
    + destruct (decide (k ∉ d.*1)); [contradiction|reflexivity].
    + destruct (decide (k ∉ d.*1)); [|contradiction].
      rewrite filter_not_in_snoc by exact Hk.
      rewrite <- app_assoc. reflexivity.
Qed.

(** X20: the record that [log] serialises starts with the six fixed fields
    in their order, followed by the keys of [extra] that are not among
    them; no key occurs twice, and every pair of [extra] is in the record,
    so an extra key that equals a fixed one replaces its value in place. *)
Theorem log_record_fields (name : string) (kw : PromptVault.log_kwargs)
    (w : PromptVault.world) ex :
  PromptVault.extra kw = Some ex →
  NoDup ex.*1 →
  (log_record name kw w).*1
  = ["timestamp"; "prompt"; "version"; "model"; "rendered"; "response"]
      ++ filter (λ k, k ∉ ["timestamp"; "prompt"; "version"; "model";
                           "rendered"; "response"]) ex.*1
  ∧ NoDup (log_record name kw w).*1
  ∧ ∀ k v, (k, v) ∈ ex → (k, v) ∈ log_record name kw w.
Proof.
  intros Hex Hnd. unfold log_record. rewrite Hex. cbn [default].
  assert (∀ fixed : list (string * value),
            (foldl (λ d kv, PromptVault.dict_set kv.1 kv.2 d) fixed ex).*1
            = fixed.*1 ++ filter (λ k, k ∉ fixed.*1) ex.*1) as Hkeys
    by (intros fixed; apply fold_dict_set_keys, Hnd).
  split; [apply Hkeys|]. split.
  - rewrite Hkeys. apply NoDup_app. repeat split.
    + cbn [fmap list_fmap fst].
      repeat (apply NoDup_cons; split;
              [intros Hin;
               repeat (apply elem_of_cons in Hin as [Hin|Hin];
                       [discriminate|]);
               apply elem_of_nil in Hin; exact Hin|]).
      apply NoDup_nil_2.
    + intros k Hfixed Hfilter.
      apply list_elem_of_filter in Hfilter as [Hnot _]. contradiction.
    + apply NoDup_filter, Hnd.
  - intros k v Hin. apply fold_dict_set_overrides; assumption.
Qed.

(** ** The further properties on concrete prompts and directories *)

Ltac not_in_list :=
  let Hin := fresh "Hin" in
  intros Hin; vm_compute in Hin;
  repeat (apply elem_of_cons in Hin as [Hin|Hin]; [discriminate|]);
  apply elem_of_nil in Hin; exact Hin.

Ltac no_dollar :=
  let a := fresh "a" in
  let b := fresh "b" in
  let Heq := fresh "Heq" in
  intros (a & b & Heq); cbn in Heq;
  repeat (destruct a as [|? a]; cbn in Heq; [discriminate|];
          injection Heq as _ Heq);
  destruct a; discriminate.

Lemma render_plain_template_witness :
  @Prompt.render example_builtins (bare "Hello") {[ "who" := VStr "Bob" ]}
  = Ok "Hello".
Proof.
  apply (@render_plain_template example_builtins (bare "Hello")).
  - no_dollar.
  - vm_compute. reflexivity.
Defined.

Lemma render_ignores_unused_witness :
  @Prompt.render example_builtins summarize
    (<["mood" := VStr "calm"]> {[ "text" := VStr "X" ]})
  = @Prompt.render example_builtins summarize {[ "text" := VStr "X" ]}.
Proof.
  apply (@render_ignores_unused example_builtins summarize);
    [discriminate|not_in_list|not_in_list].
Defined.

Lemma apply_defaults_fixpoint_witness :
  Prompt._apply_defaults greeting ∅ = defaults_of greeting
  ∧ Prompt._apply_defaults greeting
      (Prompt._apply_defaults greeting {[ "name" := VStr "Ann" ]})
    = Prompt._apply_defaults greeting {[ "name" := VStr "Ann" ]}.
Proof.
  apply (apply_defaults_fixpoint greeting {[ "name" := VStr "Ann" ]}).
  apply greeting_unique_keys.
Defined.

Lemma versions_spec_witness :
  Some <$> ["1.10"; "1.2"]
    ≡ₚ (λ f, PromptVault.y_version (PromptVault.data f))
         <$> PromptVault._find_files two_versions "greet"
  ∧ StronglySorted (λ a b, str_lt b a = false) ["1.10"; "1.2"].
Proof.
  apply (versions_spec two_versions "greet"). reflexivity.
Defined.

Lemma version_key_required_witness :
  @PromptVault.load example_builtins half_versioned "greet" None
  = Raise (KeyError "version").
Proof.
  apply (proj2 (@version_key_required example_builtins half_versioned
                  "greet")).
  exists greet_unversioned. split; [|reflexivity].
  apply find_files_name. split; [reflexivity|]. right. left.
Defined.

Lemma load_sound_witness :
  ∃ p, @PromptVault.load example_builtins two_versions "greet" (Some "1.10")
       = Ok p
       ∧ Prompt.name p = "greet"
       ∧ (∀ v, Some "1.10" = Some v → Prompt.version p = v).
Proof.
  eexists. split; [reflexivity|].
  destruct (@load_sound example_builtins two_versions "greet" (Some "1.10")
              _ eq_refl) as (Hname & Hversion & _).
  split; [exact Hname|exact Hversion].
Defined.

Lemma load_latest_greatest_witness :
  ∃ vs, PromptVault.versions two_versions "greet" = Ok vs
        ∧ last vs = Some "1.2".
Proof.
  apply (proj2 (@load_latest_greatest example_builtins two_versions "greet"
                  _ eq_refl)).
Defined.

Lemma load_first_match_witness :
  @PromptVault.load example_builtins tied "greet" (Some "1.2")
  = PromptVault._parse greet_1_2.
Proof.
  apply (@load_first_match example_builtins tied "greet" "1.2"
           [] greet_1_2 [greet_1_2_bis]).
  - reflexivity.
  - constructor.
  - reflexivity.
Defined.

Lemma load_latest_tie_witness :
  @PromptVault.load example_builtins tied "greet" None
  = PromptVault._parse greet_1_2_bis.
Proof.
  apply (@load_latest_tie example_builtins tied "greet" "1.2"
           [greet_1_2] greet_1_2_bis []).
  - reflexivity.
  - reflexivity.
  - constructor; [|constructor]. exists "1.2". split; reflexivity.
  - constructor.
Defined.

Lemma load_unlisted_witness :
  @PromptVault.load example_builtins two_versions "farewell" (Some "1.2")
  = Raise (FileNotFoundError
      ("[promptvault] No prompt named 'farewell' found in /srv/prompts."
         +:+ nl +:+ "Available prompts: ['greet']"))
  ∧ PromptVault.versions two_versions "farewell" = Ok [].
Proof.
  destruct (@load_unlisted example_builtins two_versions "farewell"
              ltac:(not_in_list)) as [Hload Hversions].
  split; [apply Hload|exact Hversions].
Defined.

Lemma load_version_not_found_witness :
  @PromptVault.load example_builtins two_versions "greet" (Some "2.0")
  = Raise (FileNotFoundError
      ("[promptvault] Prompt 'greet' version '2.0' not found." +:+ nl
         +:+ "Available versions: ['1.2', '1.10']")).
Proof.
  apply (@load_version_not_found example_builtins two_versions "greet" "2.0"
           ["1.2"; "1.10"]).
  - discriminate.
  - reflexivity.
  - not_in_list.
Defined.

Lemma listed_version_loads_witness :
  ∃ f, f ∈ PromptVault._find_files two_versions "greet"
       ∧ PromptVault.y_version (PromptVault.data f) = Some "1.10"
       ∧ @PromptVault.load example_builtins two_versions "greet"
           (Some "1.10") = PromptVault._parse f.
Proof.
  apply (@listed_version_loads example_builtins two_versions "greet" "1.10"
           ["1.10"; "1.2"]).
  - reflexivity.
  - left.
Defined.

Lemma diff_outcome_witness :
  @PromptVault.load example_builtins two_versions "greet" (Some "1.2")
  = Raise (FileNotFoundError
      ("[promptvault] Prompt 'greet' version '3.0' not found." +:+ nl
         +:+ "Available versions: ['1.2', '1.10']"))
  ∨ ((∃ a, @PromptVault.load example_builtins two_versions "greet"
             (Some "1.2") = Ok a)
     ∧ @PromptVault.load example_builtins two_versions "greet" (Some "3.0")
       = Raise (FileNotFoundError
           ("[promptvault] Prompt 'greet' version '3.0' not found." +:+ nl
              +:+ "Available versions: ['1.2', '1.10']"))).
Proof.
  apply (proj2 (@diff_outcome example_builtins two_versions "greet"
                  "1.2" "3.0")).
  reflexivity.
Defined.

Lemma log_append_only_witness :
  ∃ line,
    @json_dumps example_builtins (log_record "greet" no_kwargs empty_world)
    = Ok line
    ∧ PromptVault.w_files
        (@PromptVault.log example_builtins logging_vault "greet" no_kwargs
           empty_world).2 !! "logs/usage.jsonl"
      = Some (default "" (PromptVault.w_files empty_world
                            !! "logs/usage.jsonl") +:+ line +:+ nl).
Proof.
  refine (proj2 (proj2 (proj2
    (@log_append_only example_builtins logging_vault "greet" no_kwargs
       empty_world _ _ (surjective_pairing _)))) "logs/usage.jsonl"
       eq_refl eq_refl).
Defined.

Lemma log_record_fields_witness :
  (log_record "greet" kwargs_with_extra empty_world).*1
  = ["timestamp"; "prompt"; "version"; "model"; "rendered"; "response";
     "latency_ms"]
  ∧ ("model", VStr "large") ∈ log_record "greet" kwargs_with_extra empty_world.
Proof.
  destruct (log_record_fields "greet" kwargs_with_extra empty_world
              [("model", VStr "large"); ("latency_ms", VInt 12)] eq_refl)
    as (Hkeys & _ & Hpairs).
  - apply NoDup_cons. split; [not_in_list|]. apply NoDup_singleton.
  - split; [exact Hkeys|]. apply Hpairs. left.
Defined.
